(** * Stagehand: instruction resolution and caching (src/lib/index.ts)

    A shallow embedding of the [Stagehand] class: key derivation
    ([getKey]), the two cache mirrors with their persistent tables, and the
    cache-hit / cache-miss control flow of [observe] and [act].

    Conventions. An async method is a function from the object to an
    outcome, the object afterwards and the list of what the call did to the
    outside, in order; an awaited rejection is a thrown error. What the class
    reaches outside itself (the page, the oracles, [expect], [JSON.parse]) is
    a record of functions on an abstract world. [this.log] writes to the
    console only and is left out, except for the conversions to text that
    building its message performs, which can throw. The fields [openai],
    [instructor], [env] and [context] play no part in [observe] and [act]. *)

From Stdlib Require Import ZArith List Ascii String Lia Bool.
From stdpp Require Import base option list strings gmap pretty.

Local Open Scope Z_scope.

(** ** SHA-256 (FIPS 180-4), the digest behind [crypto.createHash('sha256')] *)

Module SHA256.

Definition mask32 : Z := Z.ones 32.
Definition wrap (x : Z) : Z := Z.land x mask32.
Definition add32 (x y : Z) : Z := wrap (x + y).
Definition rotr (n x : Z) : Z :=
  Z.lor (Z.shiftr x n) (wrap (Z.shiftl x (32 - n))).
Definition not32 (x : Z) : Z := Z.lxor x mask32.

Definition Ch (x y z : Z) : Z := Z.lxor (Z.land x y) (Z.land (not32 x) z).
Definition Maj (x y z : Z) : Z :=
  Z.lxor (Z.lxor (Z.land x y) (Z.land x z)) (Z.land y z).
Definition bsig0 (x : Z) : Z := Z.lxor (Z.lxor (rotr 2 x) (rotr 13 x)) (rotr 22 x).
Definition bsig1 (x : Z) : Z := Z.lxor (Z.lxor (rotr 6 x) (rotr 11 x)) (rotr 25 x).
Definition ssig0 (x : Z) : Z := Z.lxor (Z.lxor (rotr 7 x) (rotr 18 x)) (Z.shiftr x 3).
Definition ssig1 (x : Z) : Z := Z.lxor (Z.lxor (rotr 17 x) (rotr 19 x)) (Z.shiftr x 10).

(** The round constants are the first 32 bits of the fractional parts of
    the cube roots of the first 64 primes; the initial hash value takes the
    square roots of the first 8. They are computed here from that
    definition rather than tabulated. *)
Definition has_divisor (p : nat) : bool :=
  existsb (fun d => (p mod d =? 0)%nat) (seq 2 (p - 2)).
Definition primes_below (n : nat) : list Z :=
  map Z.of_nat (List.filter (fun p => negb (has_divisor p)) (seq 2 (n - 2))).

Fixpoint cbrt_search (fuel : nat) (lo hi x : Z) : Z :=
  match fuel with
  | O => lo
  | S fuel' =>
      if hi - lo <=? 1 then lo
      else
        let mid := (lo + hi) / 2 in
        if mid * mid * mid <=? x then cbrt_search fuel' mid hi x
        else cbrt_search fuel' lo mid x
  end.
Definition icbrt (x : Z) : Z := cbrt_search 200 0 (2 ^ 44) x.

Definition K : list Z :=
  Eval vm_compute in
    map (fun p => wrap (icbrt (p * 2 ^ 96))) (primes_below 312).
Definition H0 : list Z :=
  Eval vm_compute in
    map (fun p => wrap (Z.sqrt (p * 2 ^ 64))) (primes_below 20).

Record regs : Type := Regs { ra : Z; rb : Z; rc : Z; rd : Z; re : Z; rf : Z; rg : Z; rh : Z }.

Definition init : regs :=
  match H0 with
  | [a; b; c; d; e; f; g; h] => Regs a b c d e f g h
  | _ => Regs 0 0 0 0 0 0 0 0
  end.

Definition round (s : regs) (kw : Z * Z) : regs :=
  let t1 := add32 (add32 (add32 (add32 (rh s) (bsig1 (re s)))
                                (Ch (re s) (rf s) (rg s))) (fst kw)) (snd kw) in
  let t2 := add32 (bsig0 (ra s)) (Maj (ra s) (rb s) (rc s)) in
  Regs (add32 t1 t2) (ra s) (rb s) (rc s) (add32 (rd s) t1) (re s) (rf s) (rg s).

(** Message schedule: [extend n W] appends the next [n] words to [W]. *)
Fixpoint extend (n : nat) (W : list Z) : list Z :=
  match n with
  | O => W
  | S n' =>
      let t := length W in
      let w := add32 (add32 (add32 (ssig1 (nth (t - 2)%nat W 0)) (nth (t - 7)%nat W 0))
                            (ssig0 (nth (t - 15)%nat W 0))) (nth (t - 16)%nat W 0) in
      extend n' (W ++ [w])
  end.

Definition compress (s : regs) (block : list Z) : regs :=
  let s' := fold_left round (combine K (extend 48 block)) s in
  Regs (add32 (ra s) (ra s')) (add32 (rb s) (rb s')) (add32 (rc s) (rc s'))
       (add32 (rd s) (rd s')) (add32 (re s) (re s')) (add32 (rf s) (rf s'))
       (add32 (rg s) (rg s')) (add32 (rh s) (rh s')).

(** Padding: a 1 bit, zeros up to 448 mod 512, then the bit length on 64 bits. *)
Definition be_bytes (n : nat) (x : Z) : list Z :=
  map (fun i => Z.land (Z.shiftr x (8 * Z.of_nat i)) 255) (rev (seq 0 n)).
Definition pad (msg : list Z) : list Z :=
  let len := Z.of_nat (length msg) in
  msg ++ [128] ++ repeat 0 (Z.to_nat ((55 - len) mod 64)) ++ be_bytes 8 (8 * len).

Fixpoint chunks {A : Type} (fuel n : nat) (l : list A) : list (list A) :=
  match fuel, l with
  | S fuel', _ :: _ => take n l :: chunks fuel' n (drop n l)
  | _, _ => []
  end.
Definition be_word (bs : list Z) : Z := fold_left (fun acc b => acc * 256 + b) bs 0.
Definition blocks (msg : list Z) : list (list Z) :=
  let padded := pad msg in
  let words := map be_word (chunks (length padded) 4 padded) in
  chunks (length words) 16 words.

Definition digest (msg : list Z) : regs := fold_left compress (blocks msg) init.

(** Lower-case hexadecimal rendering, as [digest('hex')]. *)
Definition hex_digit (d : Z) : ascii :=
  if d <? 10 then ascii_of_N (Z.to_N (48 + d)) else ascii_of_N (Z.to_N (87 + d)).
Definition hex_word (w : Z) : list ascii :=
  map (fun i => hex_digit (Z.land (Z.shiftr w (4 * i)) 15)) [7; 6; 5; 4; 3; 2; 1; 0].
Definition hex (s : regs) : string :=
  string_of_list_ascii
    (hex_word (ra s) ++ hex_word (rb s) ++ hex_word (rc s) ++ hex_word (rd s) ++
     hex_word (re s) ++ hex_word (rf s) ++ hex_word (rg s) ++ hex_word (rh s)).

(** [update(text)] feeds the bytes of the text. *)
Definition bytes_of_string (s : string) : list Z :=
  map (fun c => Z.of_N (N_of_ascii c)) (list_ascii_of_string s).

Definition hexdigest (s : string) : string := hex (digest (bytes_of_string s)).

End SHA256.

Local Close Scope Z_scope.
Local Set Warnings "-register-all".

(** ** JavaScript values

    The values that reach [act]: what [JSON.parse] yields from a stored
    result and what the action oracle answers. Numbers are integers (element
    ids); an object is the list of its own properties, the first binding of a
    name being the one read. *)

Inductive JSVal : Type :=
| JUndefined
| JNull
| JBool (b : bool)
| JNum (n : Z)
| JStr (s : string)
| JArr (items : list JSVal)
| JObj (props : list (string * JSVal)).

Inductive Error : Type :=
| TypeError                      (* raised by the runtime: property of undefined, not iterable, not a function *)
| SyntaxError                    (* JSON.parse on malformed text *)
| NoResponse                     (* Error('no response when finding a selector') *)
| NotAttached (locator : string) (* expect(locator).toBeAttached() failed *)
| Playwright (message : string). (* raised inside an interaction primitive *)

Fixpoint own (props : list (string * JSVal)) (k : string) : option JSVal :=
  match props with
  | [] => None
  | (k', v) :: rest => if String.eqb k k' then Some v else own rest k
  end.

(** Truthiness, as in [if (x)] and [x ? a : b]. *)
Definition truthy (v : JSVal) : bool :=
  match v with
  | JUndefined | JNull => false
  | JBool b => b
  | JNum n => negb (n =? 0)%Z
  | JStr s => negb (String.eqb s "")
  | JArr _ | JObj _ => true
  end.

(** [v[k]] for the property names the class reads ([length], [locator],
    [method], [args], [element]): none of them is on a built-in prototype
    apart from [length] of arrays and strings. *)
Definition js_get (v : JSVal) (k : string) : Error + JSVal :=
  match v with
  | JUndefined | JNull => inl TypeError
  | JBool _ | JNum _ => inr JUndefined
  | JStr s => inr (if String.eqb k "length" then JNum (Z.of_nat (String.length s)) else JUndefined)
  | JArr items => inr (if String.eqb k "length" then JNum (Z.of_nat (length items)) else JUndefined)
  | JObj props => inr (default JUndefined (own props k))
  end.

(** The iteration protocol behind [for (... of v)] and the spread [...v]:
    arrays and strings are iterable, nothing else here is. A string yields
    its characters (one per byte here). *)
Definition js_iter (v : JSVal) : Error + list JSVal :=
  match v with
  | JArr items => inr items
  | JStr s => inr (map (fun c => JStr (String c EmptyString)) (list_ascii_of_string s))
  | _ => inl TypeError
  end.

(** [ToString], as applied by a template literal and by a computed property
    name. An object whose own [toString] is data (not callable) cannot be
    converted: [None] stands for the TypeError. *)
Fixpoint js_toString (v : JSVal) : option string :=
  match v with
  | JUndefined => Some "undefined"
  | JNull => Some "null"
  | JBool b => Some (if b then "true" else "false")
  | JNum n => Some (pretty n)
  | JStr s => Some s
  | JArr items =>
      (fix join (l : list JSVal) : option string :=
         match l with
         | [] => Some ""
         | x :: rest =>
             let sx := match x with
                       | JUndefined | JNull => Some ""
                       | _ => js_toString x
                       end in
             match sx, rest with
             | None, _ => None
             | Some a, [] => Some a
             | Some a, _ :: _ =>
                 match join rest with
                 | Some b => Some (a +:+ "," +:+ b)
                 | None => None
                 end
             end
         end) items
  | JObj props =>
      match own props "toString" with
      | Some _ => None
      | None => Some "[object Object]"
      end
  end.

(** ** Cache entries and the persistent cache *)

Record CacheEntry : Type := { result : string; id : option string }.

(** Modelled from the spec: the [Cache] class of [./cache], which is not
    part of the sources at hand. Section 4.2: [load] returns the full current
    mapping, [write] updates the mapping and persists at once; when caching is
    administratively disabled [load] returns an empty mapping and [write] is
    a no-op. The two tables are independent. *)
Record Cache : Type := {
  disabled : bool;
  observations_table : gmap string CacheEntry;
  actions_table : gmap string CacheEntry
}.

Definition readObservations (c : Cache) : gmap string CacheEntry :=
  if disabled c then ∅ else observations_table c.

Definition readActions (c : Cache) : gmap string CacheEntry :=
  if disabled c then ∅ else actions_table c.

Definition writeObservations (c : Cache) (key : string) (value : CacheEntry) : Cache :=
  if disabled c then c
  else {| disabled := disabled c;
          observations_table := <[key := value]> (observations_table c);
          actions_table := actions_table c |}.

Definition writeActions (c : Cache) (key : string) (value : CacheEntry) : Cache :=
  if disabled c then c
  else {| disabled := disabled c;
          observations_table := observations_table c;
          actions_table := <[key := value]> (actions_table c) |}.

(** ** The collaborators

    Everything the class reaches outside itself, as functions on a world [W]
    (the live document, the network, the clock): the two in-page scripts, the
    two oracles, the attachment check of [expect], the interaction
    primitives of a Playwright locator and [JSON.parse]. A snapshot and an
    oracle call return a value (the contracts of sections 4.3 and 4.4 of the
    spec; their own failures are outside the model); the quiescence wait,
    the attachment check and an interaction may throw. The action oracle is
    [act] of [./inference]. *)

Record Collaborators (W : Type) : Type := {
  (* page.evaluate(() => window.waitForDomSettle()); false when it throws *)
  waitForDomSettle : W -> bool * W;
  (* page.evaluate(() => window.processElements()): outputString and selectorMap *)
  processElements : W -> (string * gmap string string) * W;
  (* openai.chat.completions.create(...).choices[0].message.content, from the
     instruction and the DOM text; None is a null content *)
  chat_completions_create : string -> string -> W -> option string * W;
  (* act({action, domElements, client}) of ./inference *)
  inference_act : string -> string -> W -> JSVal * W;
  (* expect(page.locator(l).first()).toBeAttached(); false when it throws *)
  toBeAttached : string -> W -> bool * W;
  (* page.locator(l).first()[method](...args); Some e when it throws,
     an unknown method included *)
  locator_call : JSVal -> string -> list JSVal -> W -> option Error * W;
  (* JSON.parse; None is the SyntaxError *)
  JSON_parse : string -> option JSVal
}.

Arguments waitForDomSettle {W} _ _.
Arguments processElements {W} _ _.
Arguments chat_completions_create {W} _ _ _ _.
Arguments inference_act {W} _ _ _ _.
Arguments toBeAttached {W} _ _ _.
Arguments locator_call {W} _ _ _ _ _.
Arguments JSON_parse {W} _ _.

(** What a call does to the outside, in order. *)
Inductive Event : Type :=
| Settle (ok : bool)
| Snapshot
| OracleLocator (instruction dom : string) (content : option string)
| OracleActions (instruction dom : string) (response : JSVal)
| ExpectAttached (locator : string) (ok : bool)
| Interaction (locator : JSVal) (method : string) (args : list JSVal) (thrown : option Error).

Definition is_oracle (e : Event) : bool :=
  match e with
  | OracleLocator _ _ _ | OracleActions _ _ _ => true
  | _ => false
  end.

Definition is_interaction (e : Event) : bool :=
  match e with
  | Interaction _ _ _ _ => true
  | _ => false
  end.

Definition oracle_calls (t : list Event) : nat := length (List.filter is_oracle t).
Definition interactions (t : list Event) : list Event := List.filter is_interaction t.

(** ** The class *)

Record Stagehand (W : Type) : Type := {
  observations : gmap string CacheEntry;
  actions : gmap string CacheEntry;
  this_id : option string;              (* the field [id]; None until setId *)
  cache : Cache;
  verbose : bool;
  page : W
}.

Arguments observations {W} _.
Arguments actions {W} _.
Arguments this_id {W} _.
Arguments cache {W} _.
Arguments verbose {W} _.
Arguments page {W} _.

(** [getKey(operation)] (lines 137-139): the hex SHA-256 digest of the text. *)
Definition getKey {W : Type} (this : Stagehand W) (operation : string) : string :=
  SHA256.hexdigest operation.

(** [new Stagehand({env, disableCache, verbose})] (lines 69-93) over the
    tables on disk: the mirrors are what the cache reads at that moment. *)
Definition constructor {W : Type} (disableCache verbose : bool)
    (stored_observations stored_actions : gmap string CacheEntry) (w : W) : Stagehand W :=
  let cache := {| disabled := disableCache;
                  observations_table := stored_observations;
                  actions_table := stored_actions |} in
  {| observations := readObservations cache;
     actions := readActions cache;
     this_id := None;
     cache := cache;
     verbose := verbose;
     page := w |}.

Definition setId {W : Type} (key : string) (this : Stagehand W) : Stagehand W :=
  {| observations := observations this; actions := actions this; this_id := Some key;
     cache := cache this; verbose := verbose this; page := page this |}.

Definition setPage {W : Type} (w : W) (this : Stagehand W) : Stagehand W :=
  {| observations := observations this; actions := actions this; this_id := this_id this;
     cache := cache this; verbose := verbose this; page := w |}.

(** An async method: from the object to its outcome (a thrown error or a
    value), the object afterwards and the events of the call. *)
Definition M (W A : Type) : Type := Stagehand W -> (Error + A) * Stagehand W * list Event.

Definition ret {W A : Type} (a : A) : M W A := fun this => (inr a, this, []).
Definition throw {W A : Type} (e : Error) : M W A := fun this => (inl e, this, []).
Definition bind {W A B : Type} (m : M W A) (f : A -> M W B) : M W B :=
  fun this =>
    match m this with
    | (inr a, this1, t1) =>
        match f a this1 with
        | (r, this2, t2) => (r, this2, t1 ++ t2)
        end
    | (inl e, this1, t1) => (inl e, this1, t1)
    end.

Declare Scope js_scope.
Delimit Scope js_scope with js.
Notation "'let*' x := m 'in' k" := (bind m (fun x => k))
  (at level 10, x pattern, m at level 100, k at level 200) : js_scope.
Notation "m ;;; k" := (bind m (fun _ => k))
  (at level 100, k at level 200, right associativity) : js_scope.

Definition emit {W : Type} (e : Event) : M W unit := fun this => (inr tt, this, [e]).

(** A call on [this.page] (or on the network): the world moves on. *)
Definition extern {W A : Type} (f : W -> A * W) : M W A :=
  fun this => let '(a, w) := f (page this) in (inr a, setPage w this, []).

Definition lift {W A : Type} (r : Error + A) : M W A :=
  match r with
  | inl e => throw e
  | inr a => ret a
  end.

Definition or_throw {W A : Type} (e : Error) (o : option A) : M W A :=
  match o with
  | Some a => ret a
  | None => throw e
  end.

(** [for (const x of xs) { body }]: a throw leaves the loop. *)
Fixpoint for_of {W A : Type} (xs : list A) (body : A -> M W unit) : M W unit :=
  match xs with
  | [] => ret tt
  | x :: rest => bind (body x) (fun _ => for_of rest body)
  end.

(** A template literal: each hole is converted with [ToString], left to
    right; the text itself only goes to the console. *)
Definition template {W : Type} (holes : list JSVal) : M W unit :=
  for_of holes (fun v => bind (or_throw TypeError (js_toString v)) (fun _ => ret tt)).

(** A string that passes [if (s)]: defined and not empty. *)
Definition truthy_string (o : option string) : option string :=
  match o with
  | Some s => if String.eqb s "" then None else Some s
  | None => None
  end.

Section Methods.

Context {W : Type} (E : Collaborators W).

Local Open Scope js_scope.

(** [waitForSettledDom] (lines 129-135): the failure of the wait is caught
    and logged. *)
Definition waitForSettledDom : M W unit :=
  let* ok := extern (waitForDomSettle E) in
  emit (Settle ok).

(** [await this.page.evaluate(() => window.processElements())] *)
Definition snapshot : M W (string * gmap string string) :=
  let* r := extern (processElements E) in
  emit Snapshot ;;;
  ret r.

(** [await expect(firstLocator).toBeAttached()] *)
Definition expect_toBeAttached (locator : string) : M W unit :=
  let* ok := extern (toBeAttached E locator) in
  emit (ExpectAttached locator ok) ;;;
  if ok then ret tt else throw (NotAttached locator).

(** [await locator[method](...args)] on [page.locator(selector).first()] *)
Definition invoke (selector method args : JSVal) : M W unit :=
  let* name := or_throw TypeError (js_toString method) in
  let* argv := lift (js_iter args) in
  let* thrown := extern (locator_call E selector name argv) in
  emit (Interaction selector name argv thrown) ;;;
  match thrown with
  | Some e => throw e
  | None => ret tt
  end.

(** [cacheObservation] (lines 280-287): the mirror is written first, then
    the persistent table through the cache. *)
Definition cacheObservation (observation result : string) : M W string :=
  fun this =>
    let key := getKey this observation in
    let value := {| result := result; id := this_id this |} in
    (inr key,
     {| observations := <[key := value]> (observations this);
        actions := actions this;
        this_id := this_id this;
        cache := writeObservations (cache this) key value;
        verbose := verbose this;
        page := page this |},
     []).

(** [cacheAction] (lines 289-296); no method calls it. *)
Definition cacheAction (action result : string) : M W string :=
  fun this =>
    let key := getKey this action in
    let value := {| result := result; id := this_id this |} in
    (inr key,
     {| observations := observations this;
        actions := <[key := value]> (actions this);
        this_id := this_id this;
        cache := writeActions (cache this) key value;
        verbose := verbose this;
        page := page this |},
     []).

(** [observe] (lines 191-275). A missing entry of [selectorMap] prints as
    [undefined] in the locator. *)
Definition observe (observation : string) : M W (option string) :=
  fun this =>
    let key := getKey this observation in
    let observationLocatorStr := result <$> observations this !! key in
    match truthy_string observationLocatorStr with
    | Some observationLocatorStr =>
        (expect_toBeAttached observationLocatorStr ;;;
         ret (Some key)) this
    | None =>
        (let* elements := snapshot in
         let outputString := fst elements in
         let selectorMap := snd elements in
         let* content := extern (chat_completions_create E observation outputString) in
         emit (OracleLocator observation outputString content) ;;;
         match truthy_string content with
         | None => throw NoResponse
         | Some elementId =>
             if String.eqb elementId "NONE" then ret None
             else
               let locatorString :=
                 "xpath=" +:+ default "undefined" (selectorMap !! elementId) in
               expect_toBeAttached locatorString ;;;
               let* cachedKey := cacheObservation observation locatorString in
               ret (Some cachedKey)
         end) this
    end.

(** [response.length ? response : [response]] followed by the iteration. *)
Definition normalize (res : JSVal) : M W (list JSVal) :=
  let* len := lift (js_get res "length") in
  lift (js_iter (if truthy len then res else JArr [res])).

(** The body of the loop on the hit path (lines 315-326). *)
Definition replay (command : JSVal) : M W unit :=
  let* locatorStr := lift (js_get command "locator") in
  let* method := lift (js_get command "method") in
  let* args := lift (js_get command "args") in
  template [method; locatorStr; args] ;;;
  invoke locatorStr method args.

(** The body of the loop on the miss path (lines 350-362);
    [selectorMap[element]] converts the element to a property name. *)
Definition perform (selectorMap : gmap string string) (command : JSVal) : M W unit :=
  let* element := lift (js_get command "element") in
  let* name := or_throw TypeError (js_toString element) in
  let path := default "undefined" (selectorMap !! name) in
  let* method := lift (js_get command "method") in
  let* args := lift (js_get command "args") in
  template [method; JStr path; args] ;;;
  invoke (JStr ("xpath=" +:+ path)) method args.

(** [act] (lines 298-368). The hit path leaves through [return;] after the
    loop; the miss path ends with the second wait. *)
Definition act (action : string) : M W unit :=
  waitForSettledDom ;;;
  fun this =>
    let key := getKey this action in
    match actions this !! key with
    | Some cachedAction =>
        (let* res := or_throw SyntaxError (JSON_parse E (result cachedAction)) in
         let* commands := normalize res in
         for_of commands replay) this
    | None =>
        (let* elements := snapshot in
         let outputString := fst elements in
         let selectorMap := snd elements in
         let* response := extern (inference_act E action outputString) in
         emit (OracleActions action outputString response) ;;;
         let* commands := normalize response in
         for_of commands (perform selectorMap) ;;;
         (* disable cache for now: cacheAction is not called *)
         waitForSettledDom) this
    end.

End Methods.

(** ** Reading a run *)

Definition outcome {W A : Type} (r : (Error + A) * Stagehand W * list Event) : Error + A := r.1.1.
Definition after {W A : Type} (r : (Error + A) * Stagehand W * list Event) : Stagehand W := r.1.2.
Definition trace {W A : Type} (r : (Error + A) * Stagehand W * list Event) : list Event := r.2.

(** The run [r] seen after the events [t] have already happened. *)
Definition prepend {W A : Type} (t : list Event)
    (r : (Error + A) * Stagehand W * list Event) : (Error + A) * Stagehand W * list Event :=
  (outcome r, after r, t ++ trace r).

(** ** Frame and silence of the building blocks *)

Definition caches {W : Type} (this : Stagehand W) :
    gmap string CacheEntry * gmap string CacheEntry * Cache :=
  (observations this, actions this, cache this).

(** [m] leaves both mirrors and the persistent tables as they were. *)
Definition keeps_caches {W A : Type} (m : M W A) : Prop :=
  forall this, caches (after (m this)) = caches this.

(** [m] produces no event selected by [P]. *)
Definition silent {W A : Type} (P : Event -> bool) (m : M W A) : Prop :=
  forall this, List.filter P (trace (m this)) = [].

Definition is_settle (e : Event) : bool :=
  match e with
  | Settle _ => true
  | _ => false
  end.

(** A selection of events that leaves the interactions out. *)
Definition quiet_filter (P : Event -> bool) : Prop :=
  forall l m a t, P (Interaction l m a t) = false.


(** What the mirror holds for the instruction, as the test [if (...)] sees it. *)
Definition cached_locator {W : Type} (this : Stagehand W) (observation : string) :
    option string :=
  truthy_string (result <$> observations this !! getKey this observation).

(** The object after a successful fresh resolution by [observe]. *)
Definition remembered {W : Type} (this : Stagehand W) (observation locator : string)
    (w : W) : Stagehand W :=
  let key := getKey this observation in
  let value := {| result := locator; id := this_id this |} in
  {| observations := <[key := value]> (observations this);
     actions := actions this;
     this_id := this_id this;
     cache := writeObservations (cache this) key value;
     verbose := verbose this;
     page := w |}.

(** ** The two paths of [act]

    The code of [act] after its first wait, named so that each path can be
    stated on its own: the replay of a stored result, and the execution of a
    fresh answer followed by the final wait. *)

Section Paths.

Context {W : Type} (E : Collaborators W).

Local Open Scope js_scope.

Definition replay_stored (text : string) : M W unit :=
  let* res := or_throw SyntaxError (JSON_parse E text) in
  let* commands := normalize res in
  for_of commands (replay E).

Definition perform_fresh (selectorMap : gmap string string) (response : JSVal) : M W unit :=
  let* commands := normalize response in
  for_of commands (perform E selectorMap) ;;;
  waitForSettledDom E.

End Paths.

(** ** Commands

    A stored command as section 3 of the spec describes it: a target, the
    name of an interaction primitive and its arguments, under the property
    names that the replay reads. *)

Record Command : Type := {
  cmd_locator : string;
  cmd_method : string;
  cmd_args : list JSVal
}.

Definition command_value (c : Command) : JSVal :=
  JObj [("locator", JStr (cmd_locator c));
        ("method", JStr (cmd_method c));
        ("args", JArr (cmd_args c))].

(** A primitive value: what the arguments of a command are made of. *)
Definition primitive (v : JSVal) : bool :=
  match v with
  | JNull | JBool _ | JNum _ | JStr _ => true
  | JUndefined | JArr _ | JObj _ => false
  end.

(** ** A small world to run the class in

    The document is the list of locators that have an attached element; the
    oracles answer from a script and count their calls; [JSON.parse] knows
    the values whose text the world has stored. *)

Module Demo.

Record World : Type := {
  document : list string;
  outputString : string;
  selectorMap : list (string * string);
  locator_answer : option string;
  actions_answer : JSVal;
  queries : nat
}.

Definition asked (w : World) : World :=
  {| document := document w; outputString := outputString w;
     selectorMap := selectorMap w; locator_answer := locator_answer w;
     actions_answer := actions_answer w; queries := S (queries w) |}.

Definition primitives : list string :=
  ["click"; "fill"; "selectOption"; "check"; "hover"; "press"].

Definition quote : string := String (ascii_of_nat 34) EmptyString.

(** The JSON text of a value whose strings need no escape. *)
Fixpoint text_of (v : JSVal) : string :=
  match v with
  | JUndefined | JNull => "null"
  | JBool b => if b then "true" else "false"
  | JNum n => pretty n
  | JStr s => quote +:+ s +:+ quote
  | JArr items =>
      "[" +:+
      (fix go (l : list JSVal) : string :=
         match l with
         | [] => ""
         | x :: rest =>
             text_of x +:+ match rest with
                           | [] => ""
                           | _ :: _ => "," +:+ go rest
                           end
         end) items +:+ "]"
  | JObj props =>
      "{" +:+
      (fix go (l : list (string * JSVal)) : string :=
         match l with
         | [] => ""
         | kx :: rest =>
             quote +:+ fst kx +:+ quote +:+ ":" +:+ text_of (snd kx) +:+
             match rest with
             | [] => ""
             | _ :: _ => "," +:+ go rest
             end
         end) props +:+ "}"
  end.

Definition parse (known : list JSVal) (s : string) : option JSVal :=
  find (fun v => String.eqb s (text_of v)) known.

Definition collaborators (known : list JSVal) : Collaborators World :=
  {| waitForDomSettle := fun w => (true, w);
     processElements := fun w => ((outputString w, list_to_map (selectorMap w)), w);
     chat_completions_create := fun _ _ w => (locator_answer w, asked w);
     inference_act := fun _ _ w => (actions_answer w, asked w);
     toBeAttached := fun l w => (existsb (String.eqb l) (document w), w);
     locator_call := fun _ m _ w =>
       (if existsb (String.eqb m) primitives then None else Some TypeError, w);
     JSON_parse := parse known |}.

(** A page with a submit button, numbered 7 in the snapshot. *)
Definition submit_page : World :=
  {| document := ["xpath=//button[@id='submit']"];
     outputString := "7:<button id=submit>Submit</button>";
     selectorMap := [("7", "//button[@id='submit']")];
     locator_answer := Some "7";
     actions_answer :=
       JArr [JObj [("element", JNum 7); ("method", JStr "click"); ("args", JArr [])]];
     queries := 0 |}.

(** The same page once the button is gone. *)
Definition empty_page : World :=
  {| document := [];
     outputString := outputString submit_page;
     selectorMap := selectorMap submit_page;
     locator_answer := locator_answer submit_page;
     actions_answer := actions_answer submit_page;
     queries := 0 |}.

Definition answering (content : option string) (response : JSVal) (w : World) : World :=
  {| document := document w; outputString := outputString w;
     selectorMap := selectorMap w; locator_answer := content;
     actions_answer := response; queries := queries w |}.

Definition click_submit : Command :=
  {| cmd_locator := "xpath=//button[@id='submit']";
     cmd_method := "click";
     cmd_args := [] |}.

(** An entry of the actions table holding the text of a value. *)
Definition stored (v : JSVal) : CacheEntry := {| result := text_of v; id := None |}.

End Demo.

(** ** Sessions

    A caller that awaits one call after the other and goes on after a
    rejection: the public methods [observe], [act], [setId] and [setPage]
    (lines 276-278 and 369-371), in any order. The object lives on between
    the calls; the events of the calls are put end to end. [CallSetPage]
    also stands for whatever happens to the page between two calls. *)

Inductive Call (W : Type) : Type :=
| CallObserve (observation : string)
| CallAct (action : string)
| CallSetId (key : string)
| CallSetPage (w : W).

Arguments CallObserve {W} _.
Arguments CallAct {W} _.
Arguments CallSetId {W} _.
Arguments CallSetPage {W} _.

Definition call {W : Type} (E : Collaborators W) (c : Call W) (this : Stagehand W) :
    Stagehand W * list Event :=
  match c with
  | CallObserve observation =>
      (after (observe E observation this), trace (observe E observation this))
  | CallAct action => (after (act E action this), trace (act E action this))
  | CallSetId key => (setId key this, [])
  | CallSetPage w => (setPage w this, [])
  end.

Fixpoint session {W : Type} (E : Collaborators W) (cs : list (Call W))
    (this : Stagehand W) : Stagehand W * list Event :=
  match cs with
  | [] => (this, [])
  | c :: rest =>
      let first := call E c this in
      let others := session E rest first.1 in
      (others.1, first.2 ++ others.2)
  end.

Definition is_act_call {W : Type} (c : Call W) : bool :=
  match c with
  | CallAct _ => true
  | _ => false
  end.

(** Everything of the object but its page. *)
Definition frame_of {W : Type} (this : Stagehand W) :
    gmap string CacheEntry * gmap string CacheEntry * option string * Cache * bool :=
  (observations this, actions this, this_id this, cache this, verbose this).

(** [m] leaves [f] of the object as it was. *)
Definition preserves {W A X : Type} (f : Stagehand W -> X) (m : M W A) : Prop :=
  forall this, f (after (m this)) = f this.

Definition is_snapshot (e : Event) : bool :=
  match e with
  | Snapshot => true
  | _ => false
  end.

Definition is_action_oracle (e : Event) : bool :=
  match e with
  | OracleActions _ _ _ => true
  | _ => false
  end.

Definition action_queries (t : list Event) : nat := length (List.filter is_action_oracle t).

(** What one call may do to the object: move its page, set its session
    identifier, or remember a fresh locator under a key that had none. *)
Definition step_effect {W : Type} (this this' : Stagehand W) : Prop :=
  (exists w, this' = setPage w this) \/
  (exists key, this' = setId key this) \/
  (exists observation path w,
     cached_locator this observation = None /\
     this' = remembered this observation ("xpath=" +:+ path) w).

(** A call that the mirror of the observations answers. *)
Definition answered_from_mirror {W : Type} (this : Stagehand W) (c : Call W) : Prop :=
  match c with
  | CallObserve observation => cached_locator this observation <> None
  | CallAct _ => False
  | CallSetId _ | CallSetPage _ => True
  end.

(** An [act] whose instruction has no stored action, or any other call. *)
Definition unserved {W : Type} (this : Stagehand W) (c : Call W) : Prop :=
  match c with
  | CallAct action => actions this !! getKey this action = None
  | _ => True
  end.

(** ** Lists of commands *)

(** A command as the action oracle answers it (lines 351-354): the id of
    an element of the snapshot, the name of a primitive and its arguments.
    The id stands for a number of the runtime when it is a safe integer. *)
Record Step : Type := {
  step_element : Z;
  step_method : string;
  step_args : list JSVal
}.

Definition step_value (s : Step) : JSVal :=
  JObj [("element", JNum (step_element s));
        ("method", JStr (step_method s));
        ("args", JArr (step_args s))].

(** The locator that a step is run on: the entry of the selector map under
    the printed id, or the text undefined when there is none. *)
Definition step_locator (selectorMap : gmap string string) (s : Step) : string :=
  "xpath=" +:+ default "undefined" (selectorMap !! pretty (step_element s)).

Definition threw (e : Event) : option Error :=
  match e with
  | Interaction _ _ _ thrown => thrown
  | _ => None
  end.

(** The interaction that replays a stored command. *)
Definition replays (c : Command) (e : Event) : Prop :=
  exists thrown,
    e = Interaction (JStr (cmd_locator c)) (cmd_method c) (cmd_args c) thrown.

(** The interaction that performs a step of a fresh answer. *)
Definition performs (selectorMap : gmap string string) (s : Step) (e : Event) : Prop :=
  exists thrown,
    e = Interaction (JStr (step_locator selectorMap s)) (step_method s) (step_args s) thrown.

(** The events [t] of a loop over [xs] that ended in [out]: one interaction
    for each element of a prefix of [xs], in order; all of [xs] and no throw
    when the loop returned; the throw in the last interaction, and in no
    other, when it did not. *)
Definition in_order {A : Type} (shows : A -> Event -> Prop) (xs : list A)
    (out : Error + unit) (t : list Event) : Prop :=
  Forall2 shows (take (length t) xs) t /\
  (out = inr tt -> length t = length xs /\ Forall (fun e => threw e = None) t) /\
  (forall err, out = inl err ->
     exists t0 e, t = t0 ++ [e] /\ threw e = Some err /\
                  Forall (fun e => threw e = None) t0).

Definition is_digit (c : ascii) : bool :=
  existsb (Ascii.eqb c) (list_ascii_of_string "0123456789").

(** ** Extraction and downloads

    The two remaining methods that work on the page: [extract] (lines
    141-189) and [downloadPDF] (lines 101-109). Their collaborators are the
    schema-bound oracle and the download of Playwright; [Schema] is the type
    of schemas and [Download] that of download handles. A call that rejects answers
    [None] or [false]. *)

Record Services (W Schema Download : Type) : Type := {
  (* instructor.chat.completions.create({..., response_model: {schema, name: 'Extraction'}}),
     from the schema, the instruction and the DOM text *)
  instructor_create : Schema -> string -> string -> W -> option JSVal * W;
  (* this.page.waitForEvent('download'): the promise is made, the page listens *)
  waitForEvent_download : W -> W;
  (* await downloadPromise *)
  download_event : W -> option Download * W;
  (* download.saveAs(path) *)
  download_saveAs : Download -> string -> W -> bool * W;
  (* download.delete() *)
  download_delete : Download -> W -> bool * W
}.

Arguments instructor_create {W Schema Download} _ _ _ _ _.
Arguments waitForEvent_download {W Schema Download} _ _.
Arguments download_event {W Schema Download} _ _.
Arguments download_saveAs {W Schema Download} _ _ _ _.
Arguments download_delete {W Schema Download} _ _ _.

Inductive Failure : Type :=
| Raised (e : Error)          (* an error of [observe] or [act] *)
| Rejected (what : string).   (* a rejected call of a service *)

Inductive SessionEvent : Type :=
| Core (e : Event)
| OracleExtraction (instruction dom : string) (response : option JSVal)
| DownloadExpected
| DownloadArrived (ok : bool)
| SavedAs (path : string) (ok : bool)
| Deleted (ok : bool).

Definition core_events (t : list SessionEvent) : list Event :=
  flat_map (fun e => match e with
                     | Core c => [c]
                     | _ => []
                     end) t.

Definition is_extraction (e : SessionEvent) : bool :=
  match e with
  | OracleExtraction _ _ _ => true
  | _ => false
  end.

Section Services.

Context {W Schema Download : Type} (E : Collaborators W)
  (V : Services W Schema Download).

(** [extract({instruction, schema})] (lines 141-189). *)
Definition extract (instruction : string) (schema : Schema) (this : Stagehand W) :
    (Failure + JSVal) * Stagehand W * list SessionEvent :=
  let settled := waitForSettledDom E this in
  match outcome settled with
  | inl e => (inl (Raised e), after settled, map Core (trace settled))
  | inr _ =>
      let elements := snapshot E (after settled) in
      let seen := map Core (trace settled ++ trace elements) in
      match outcome elements with
      | inl e => (inl (Raised e), after elements, seen)
      | inr els =>
          let outputString := fst els in
          let answer :=
            instructor_create V schema instruction outputString (page (after elements)) in
          let asked := seen ++ [OracleExtraction instruction outputString answer.1] in
          match answer.1 with
          | Some selectorResponse =>
              (inr selectorResponse, setPage answer.2 (after elements), asked)
          | None => (inl (Rejected "extract"), setPage answer.2 (after elements), asked)
          end
      end
  end.

(** The path of [download.saveAs]: the title between the folder and the
    extension. *)
Definition download_path (title : string) : string :=
  "downloads/" +:+ title +:+ ".pdf".

(** [downloadPDF(url, title)] (lines 101-109): the download is expected
    before the click is made through [act]; the file is saved, then the
    download is deleted. *)
Definition downloadPDF (url title : string) (this : Stagehand W) :
    (Failure + unit) * Stagehand W * list SessionEvent :=
  let listening := setPage (waitForEvent_download V (page this)) this in
  let clicked := act E ("click on " +:+ url) listening in
  let seen := DownloadExpected :: map Core (trace clicked) in
  match outcome clicked with
  | inl e => (inl (Raised e), after clicked, seen)
  | inr _ =>
      let arrived := download_event V (page (after clicked)) in
      match arrived.1 with
      | None =>
          (inl (Rejected "download"), setPage arrived.2 (after clicked),
           seen ++ [DownloadArrived false])
      | Some download =>
          let saved := download_saveAs V download (download_path title) arrived.2 in
          if saved.1
          then
            let deleted := download_delete V download saved.2 in
            (if deleted.1 then inr tt else inl (Rejected "delete"),
             setPage deleted.2 (after clicked),
             seen ++ [DownloadArrived true; SavedAs (download_path title) true;
                      Deleted deleted.1])
          else
            (inl (Rejected "saveAs"), setPage saved.2 (after clicked),
             seen ++ [DownloadArrived true; SavedAs (download_path title) false])
      end
  end.

End Services.

Definition failure_outcome {W A : Type}
    (r : (Failure + A) * Stagehand W * list SessionEvent) : Failure + A := r.1.1.
Definition object_after {W A : Type}
    (r : (Failure + A) * Stagehand W * list SessionEvent) : Stagehand W := r.1.2.
Definition events_of {W A : Type}
    (r : (Failure + A) * Stagehand W * list SessionEvent) : list SessionEvent := r.2.

(** The tails that the events of [downloadPDF] can have after the click. *)
Definition download_tails (title : string) : list (list SessionEvent) :=
  [ [];
    [DownloadArrived false];
    [DownloadArrived true; SavedAs (download_path title) false];
    [DownloadArrived true; SavedAs (download_path title) true; Deleted false];
    [DownloadArrived true; SavedAs (download_path title) true; Deleted true] ].

(** ** Where the values stand for those of the runtime *)

(** The integers that a number of the runtime holds exactly and prints in
    full: the safe integers, below 2^53 in absolute value. *)
Definition safe_integer (n : Z) : Prop := (- 2 ^ 53 < n < 2 ^ 53)%Z.

(** The property names that every object inherits from [Object.prototype];
    read on an object that has no such property of its own, they do not give
    undefined. *)
Definition object_prototype_names : list string :=
  ["constructor"; "__defineGetter__"; "__defineSetter__"; "hasOwnProperty";
   "__lookupGetter__"; "__lookupSetter__"; "isPrototypeOf"; "propertyIsEnumerable";
   "toString"; "valueOf"; "__proto__"; "toLocaleString"].

(** An element id for which [selectorMap[elementId]] is the entry of the
    map, or undefined when there is none: a key of the map, or a name that
    no object inherits. *)
Definition plain_key (selectorMap : gmap string string) (elementId : string) : Prop :=
  is_Some (selectorMap !! elementId) \/ ~ In elementId object_prototype_names.

(** * Properties *)

Example toString_array :
  js_toString (JArr [JNum 7; JNull; JStr "a"; JArr [JBool true; JNum (-2)]]) = Some "7,,a,true,-2".
Proof. reflexivity. Qed.

Example toString_data_toString :
  js_toString (JArr [JObj [("toString", JNum 1)]]) = None.
Proof. reflexivity. Qed.

Create HintDb frame.

Section Blocks.

Context {W : Type} (E : Collaborators W).

Lemma keeps_ret {A : Type} (a : A) : keeps_caches (ret (W := W) a).
Proof. intros this. reflexivity. Qed.

Lemma keeps_throw {A : Type} (e : Error) : keeps_caches (throw (W := W) (A := A) e).
Proof. intros this. reflexivity. Qed.

Lemma keeps_emit (e : Event) : keeps_caches (emit (W := W) e).
Proof. intros this. reflexivity. Qed.

Lemma keeps_extern {A : Type} (f : W -> A * W) : keeps_caches (extern f).
Proof. intros this. unfold extern. destruct (f (page this)). reflexivity. Qed.

Lemma keeps_lift {A : Type} (r : Error + A) : keeps_caches (lift (W := W) r).
Proof. destruct r; intros this; reflexivity. Qed.

Lemma keeps_or_throw {A : Type} (e : Error) (o : option A) :
  keeps_caches (or_throw (W := W) e o).
Proof. destruct o; intros this; reflexivity. Qed.

Lemma keeps_bind {A B : Type} (m : M W A) (f : A -> M W B) :
  keeps_caches m -> (forall a, keeps_caches (f a)) -> keeps_caches (bind m f).
Proof.
  intros Hm Hf this. unfold bind.
  specialize (Hm this).
  destruct (m this) as [[[e | a] this1] t1]; [exact Hm |].
  specialize (Hf a this1).
  destruct (f a this1) as [[r this2] t2].
  unfold after in *. simpl in *. congruence.
Qed.

Lemma keeps_for_of {A : Type} (xs : list A) (body : A -> M W unit) :
  (forall x, keeps_caches (body x)) -> keeps_caches (for_of xs body).
Proof.
  intros Hbody. induction xs as [| x rest IH]; simpl.
  - apply keeps_ret.
  - apply keeps_bind; [apply Hbody | intros _; exact IH].
Qed.

Lemma silent_ret {A : Type} (P : Event -> bool) (a : A) : silent P (ret (W := W) a).
Proof. intros this. reflexivity. Qed.

Lemma silent_throw {A : Type} (P : Event -> bool) (e : Error) :
  silent P (throw (W := W) (A := A) e).
Proof. intros this. reflexivity. Qed.

Lemma silent_emit (P : Event -> bool) (e : Event) :
  P e = false -> silent P (emit (W := W) e).
Proof. intros He this. unfold emit, trace. simpl. rewrite He. reflexivity. Qed.

Lemma silent_extern {A : Type} (P : Event -> bool) (f : W -> A * W) : silent P (extern f).
Proof. intros this. unfold extern. destruct (f (page this)). reflexivity. Qed.

Lemma silent_lift {A : Type} (P : Event -> bool) (r : Error + A) :
  silent P (lift (W := W) r).
Proof. destruct r; intros this; reflexivity. Qed.

Lemma silent_or_throw {A : Type} (P : Event -> bool) (e : Error) (o : option A) :
  silent P (or_throw (W := W) e o).
Proof. destruct o; intros this; reflexivity. Qed.

Lemma silent_bind {A B : Type} (P : Event -> bool) (m : M W A) (f : A -> M W B) :
  silent P m -> (forall a, silent P (f a)) -> silent P (bind m f).
Proof.
  intros Hm Hf this. unfold bind.
  specialize (Hm this).
  destruct (m this) as [[[e | a] this1] t1]; [exact Hm |].
  specialize (Hf a this1).
  destruct (f a this1) as [[r this2] t2].
  unfold trace in *. simpl in *.
  rewrite List.filter_app, Hm, Hf. reflexivity.
Qed.

Lemma silent_for_of {A : Type} (P : Event -> bool) (xs : list A) (body : A -> M W unit) :
  (forall x, silent P (body x)) -> silent P (for_of xs body).
Proof.
  intros Hbody. induction xs as [| x rest IH]; simpl.
  - apply silent_ret.
  - apply silent_bind; [apply Hbody | intros _; exact IH].
Qed.

End Blocks.

#[global] Hint Resolve keeps_ret keeps_throw keeps_emit keeps_extern keeps_lift
  keeps_or_throw keeps_bind keeps_for_of : frame.
#[global] Hint Resolve silent_ret silent_throw silent_emit silent_extern silent_lift
  silent_or_throw silent_bind silent_for_of : frame.

Ltac frame_step :=
  match goal with
  | |- keeps_caches (bind _ _) => apply keeps_bind; [| intros ?]
  | |- silent _ (bind _ _) => apply silent_bind; [| intros ?]
  | |- keeps_caches (for_of _ _) => apply keeps_for_of; intros ?
  | |- silent _ (for_of _ _) => apply silent_for_of; intros ?
  | |- keeps_caches (match ?x with _ => _ end) => destruct x
  | |- silent _ (match ?x with _ => _ end) => destruct x
  | |- _ => solve [auto with frame]
  end.

Ltac frame := repeat frame_step.

(** Back from a run on a given object to the property of the computation. *)
Ltac generalize_run :=
  match goal with
  | |- caches (after (?m ?this)) = caches ?this =>
      let H := fresh in assert (H : keeps_caches m); [| exact (H this)]
  | |- List.filter ?P (trace (?m ?this)) = [] =>
      let H := fresh in assert (H : silent P m); [| exact (H this)]
  end.

Section Operations.

Context {W : Type} (E : Collaborators W).

Lemma keeps_waitForSettledDom : keeps_caches (waitForSettledDom E).
Proof. unfold waitForSettledDom. frame. Qed.

Lemma keeps_snapshot : keeps_caches (snapshot E).
Proof. unfold snapshot. frame. Qed.

Lemma keeps_expect (locator : string) : keeps_caches (expect_toBeAttached E locator).
Proof. unfold expect_toBeAttached. frame. Qed.

Lemma keeps_template (holes : list JSVal) : keeps_caches (template (W := W) holes).
Proof. unfold template. frame. Qed.

Lemma keeps_invoke (selector method args : JSVal) :
  keeps_caches (invoke E selector method args).
Proof. unfold invoke. frame. Qed.

Lemma keeps_normalize (res : JSVal) : keeps_caches (normalize (W := W) res).
Proof. unfold normalize. frame. Qed.

Lemma keeps_replay (command : JSVal) : keeps_caches (replay E command).
Proof. unfold replay. frame; auto using keeps_template, keeps_invoke. Qed.

Lemma keeps_perform (selectorMap : gmap string string) (command : JSVal) :
  keeps_caches (perform E selectorMap command).
Proof. unfold perform. frame; auto using keeps_template, keeps_invoke. Qed.

(** [act] never writes a cache, on either path. *)
Lemma keeps_act (action : string) : keeps_caches (act E action).
Proof.
  unfold act. apply keeps_bind; [apply keeps_waitForSettledDom |].
  intros _ this.
  destruct (actions this !! getKey this action) as [cachedAction |].
  - generalize_run. frame; auto using keeps_normalize, keeps_replay.
  - generalize_run. frame;
      auto using keeps_snapshot, keeps_normalize, keeps_perform, keeps_waitForSettledDom.
Qed.

Lemma silent_template (P : Event -> bool) (holes : list JSVal) :
  silent P (template (W := W) holes).
Proof. unfold template. frame. Qed.

Lemma silent_normalize (P : Event -> bool) (res : JSVal) :
  silent P (normalize (W := W) res).
Proof. unfold normalize. frame. Qed.

Lemma silent_invoke (P : Event -> bool) (selector method args : JSVal) :
  quiet_filter P -> silent P (invoke E selector method args).
Proof. intros HP. unfold invoke. frame. Qed.

Lemma silent_replay (P : Event -> bool) (command : JSVal) :
  quiet_filter P -> silent P (replay E command).
Proof. intros HP. unfold replay. frame; auto using silent_template, silent_invoke. Qed.

Lemma silent_perform (P : Event -> bool) (selectorMap : gmap string string)
    (command : JSVal) :
  quiet_filter P -> silent P (perform E selectorMap command).
Proof. intros HP. unfold perform. frame; auto using silent_template, silent_invoke. Qed.

Lemma silent_expect (P : Event -> bool) (locator : string) :
  (forall ok, P (ExpectAttached locator ok) = false) ->
  silent P (expect_toBeAttached E locator).
Proof. intros HP. unfold expect_toBeAttached. frame. Qed.

End Operations.

(** ** Key derivation *)







(** The computed constants are those of FIPS 180-4. *)
Example sha256_initial_hash_value :
  SHA256.H0 = [0x6a09e667; 0xbb67ae85; 0x3c6ef372; 0xa54ff53a;
               0x510e527f; 0x9b05688c; 0x1f83d9ab; 0x5be0cd19]%Z.
Proof. reflexivity. Qed.

Example sha256_round_constants :
  length SHA256.K = 64 /\
  take 4 SHA256.K = [0x428a2f98; 0x71374491; 0xb5c0fbcf; 0xe9b5dba5]%Z /\
  drop 60 SHA256.K = [0x90befffa; 0xa4506ceb; 0xbef9a3f7; 0xc67178f2]%Z.
Proof. repeat split. Qed.

(** Known answers of SHA-256 (FIPS 180-4 examples and the empty text). *)
Example getKey_abc :
  SHA256.hexdigest "abc"
  = "ba7816bf8f01cfea414140de5dae2223b00361a396177a9cb410ff61f20015ad".
Proof. vm_compute. reflexivity. Qed.

Example getKey_empty :
  SHA256.hexdigest ""
  = "e3b0c44298fc1c149afbf4c8996fb92427ae41e4649b934ca495991b7852b855".
Proof. vm_compute. reflexivity. Qed.

Example getKey_two_blocks :
  SHA256.hexdigest "abcdbcdecdefdefgefghfghighijhijkijkljklmklmnlmnomnopnopq"
  = "248d6a61d20638b8e5c026930c3e6039a33ce45964ff2167f6ecedd419db06c1".
Proof. vm_compute. reflexivity. Qed.


(** ** [observe], path by path *)

Section Observe.

Context {W : Type} (E : Collaborators W).

Lemma observe_hit (this : Stagehand W) (observation locator : string) (ok : bool) (w : W) :
  cached_locator this observation = Some locator ->
  toBeAttached E locator (page this) = (ok, w) ->
  observe E observation this
  = (if ok then inr (Some (getKey this observation)) else inl (NotAttached locator),
     setPage w this,
     [ExpectAttached locator ok]).
Proof.
  unfold cached_locator. intros Hhit Hatt.
  unfold observe. cbv zeta. rewrite Hhit.
  unfold expect_toBeAttached, bind, extern, emit, ret, throw.
  rewrite Hatt. destruct ok; reflexivity.
Qed.

Lemma observe_miss (this : Stagehand W) (observation : string)
    (els : string * gmap string string) (w1 w2 : W) (content : option string) :
  cached_locator this observation = None ->
  processElements E (page this) = (els, w1) ->
  chat_completions_create E observation els.1 w1 = (content, w2) ->
  observe E observation this
  = match truthy_string content with
    | None =>
        (inl NoResponse, setPage w2 this,
         [Snapshot; OracleLocator observation els.1 content])
    | Some elementId =>
        if String.eqb elementId "NONE"
        then (inr None, setPage w2 this,
              [Snapshot; OracleLocator observation els.1 content])
        else
          let locator := "xpath=" +:+ default "undefined" (els.2 !! elementId) in
          let attached := toBeAttached E locator w2 in
          if attached.1
          then (inr (Some (getKey this observation)),
                remembered this observation locator attached.2,
                [Snapshot; OracleLocator observation els.1 content;
                 ExpectAttached locator true])
          else (inl (NotAttached locator), setPage attached.2 this,
                [Snapshot; OracleLocator observation els.1 content;
                 ExpectAttached locator false])
    end.
Proof.
  unfold cached_locator. intros Hmiss Hsnap Horacle.
  unfold observe. cbv zeta. rewrite Hmiss.
  unfold snapshot, expect_toBeAttached, cacheObservation, bind, extern, emit, ret, throw.
  rewrite Hsnap. simpl. rewrite Horacle. simpl.
  destruct (truthy_string content) as [elementId |]; [| reflexivity].
  destruct (String.eqb elementId "NONE"); [reflexivity |].
  cbn [page setPage].
  destruct (toBeAttached E _ w2) as [[|] w3]; reflexivity.
Qed.

Lemma observe_key (this : Stagehand W) (instruction k : string) :
  outcome (observe E instruction this) = inr (Some k) -> k = getKey this instruction.
Proof.
  destruct (cached_locator this instruction) as [locator |] eqn:Hc.
  - destruct (toBeAttached E locator (page this)) as [ok w] eqn:Ha.
    rewrite (observe_hit this instruction locator ok w Hc Ha).
    destruct ok; unfold outcome; simpl; congruence.
  - destruct (processElements E (page this)) as [els w1] eqn:Hs.
    destruct (chat_completions_create E instruction els.1 w1) as [content w2] eqn:Ho.
    rewrite (observe_miss this instruction els w1 w2 content Hc Hs Ho).
    destruct (truthy_string content) as [elementId |]; [| discriminate].
    destruct (String.eqb elementId "NONE"); [discriminate |].
    cbv zeta. destruct (toBeAttached E _ w2) as [[|] w3];
      unfold outcome; simpl; congruence.
Qed.

Lemma cached_locator_setPage (this : Stagehand W) (instruction : string) (w : W) :
  cached_locator (setPage w this) instruction = cached_locator this instruction.
Proof. reflexivity. Qed.

Lemma cached_locator_remembered (this : Stagehand W) (instruction path : string) (w : W) :
  cached_locator (remembered this instruction ("xpath=" +:+ path) w) instruction
  = Some ("xpath=" +:+ path).
Proof.
  unfold cached_locator, remembered, getKey. cbn [observations].
  rewrite lookup_insert_eq. reflexivity.
Qed.

(** A successful [observe] leaves a usable locator under the key. *)
Lemma observe_success_cached (this : Stagehand W) (instruction k : string) :
  outcome (observe E instruction this) = inr (Some k) ->
  exists locator,
    cached_locator (after (observe E instruction this)) instruction = Some locator.
Proof.
  destruct (cached_locator this instruction) as [locator |] eqn:Hc.
  - destruct (toBeAttached E locator (page this)) as [ok w] eqn:Ha.
    rewrite (observe_hit this instruction locator ok w Hc Ha).
    intros _. exists locator. exact Hc.
  - destruct (processElements E (page this)) as [els w1] eqn:Hs.
    destruct (chat_completions_create E instruction els.1 w1) as [content w2] eqn:Ho.
    rewrite (observe_miss this instruction els w1 w2 content Hc Hs Ho).
    destruct (truthy_string content) as [elementId |]; [| discriminate].
    destruct (String.eqb elementId "NONE"); [discriminate |].
    cbv zeta. destruct (toBeAttached E _ w2) as [[|] w3]; [| discriminate].
    intros _. eexists. unfold after. cbn [fst snd].
    apply cached_locator_remembered.
Qed.

End Observe.

(** ** Running a sequence step by step *)

Section Steps.

Context {W : Type}.

Lemma prepend_nil {A : Type} (r : (Error + A) * Stagehand W * list Event) :
  prepend [] r = r.
Proof. destruct r as [[o this] t]. reflexivity. Qed.

Lemma prepend_prepend {A : Type} (t1 t2 : list Event)
    (r : (Error + A) * Stagehand W * list Event) :
  prepend t1 (prepend t2 r) = prepend (t1 ++ t2) r.
Proof. unfold prepend, outcome, after, trace. simpl. rewrite app_assoc. reflexivity. Qed.

Lemma bind_run {A B : Type} (m : M W A) (f : A -> M W B) (this : Stagehand W) :
  bind m f this
  = match m this with
    | (inr a, this1, t1) => prepend t1 (f a this1)
    | (inl e, this1, t1) => (inl e, this1, t1)
    end.
Proof.
  unfold bind. destruct (m this) as [[[e | a] this1] t1]; [reflexivity |].
  destruct (f a this1) as [[r this2] t2]. reflexivity.
Qed.

Lemma bind_ret {A B : Type} (a : A) (f : A -> M W B) (this : Stagehand W) :
  bind (ret a) f this = f a this.
Proof. rewrite bind_run. simpl. apply prepend_nil. Qed.

Lemma bind_throw {A B : Type} (e : Error) (f : A -> M W B) (this : Stagehand W) :
  bind (throw e) f this = (inl e, this, []).
Proof. reflexivity. Qed.

Lemma bind_emit {B : Type} (e : Event) (f : unit -> M W B) (this : Stagehand W) :
  bind (emit e) f this = prepend [e] (f tt this).
Proof. rewrite bind_run. reflexivity. Qed.

Lemma bind_extern {A B : Type} (g : W -> A * W) (f : A -> M W B) (this : Stagehand W)
    (a : A) (w : W) :
  g (page this) = (a, w) -> bind (extern g) f this = f a (setPage w this).
Proof.
  intros Hg. rewrite bind_run. unfold extern. rewrite Hg. apply prepend_nil.
Qed.

Lemma bind_bind {A B C : Type} (m : M W A) (f : A -> M W B) (g : B -> M W C)
    (this : Stagehand W) :
  bind (bind m f) g this = bind m (fun a => bind (f a) g) this.
Proof.
  rewrite !bind_run.
  destruct (m this) as [[[e | a] this1] t1]; [reflexivity |].
  rewrite bind_run.
  destruct (f a this1) as [[[e | b] this2] t2]; [reflexivity |].
  unfold prepend at 1. cbn [outcome after trace fst snd].
  rewrite prepend_prepend. reflexivity.
Qed.

End Steps.

Ltac steps := repeat (progress (rewrite ?bind_bind, ?bind_ret)).

(** ** [act], path by path *)

Section Act.

Context {W : Type} (E : Collaborators W).

Lemma act_hit (this : Stagehand W) (action : string) (cachedAction : CacheEntry)
    (ok : bool) (w0 : W) :
  actions this !! getKey this action = Some cachedAction ->
  waitForDomSettle E (page this) = (ok, w0) ->
  act E action this
  = prepend [Settle ok] (replay_stored E (result cachedAction) (setPage w0 this)).
Proof.
  intros Hhit Hwait.
  unfold act, waitForSettledDom.
  rewrite bind_bind, (bind_extern _ _ _ _ _ Hwait), bind_emit.
  change (actions (setPage w0 this) !! getKey (setPage w0 this) action)
    with (actions this !! getKey this action).
  rewrite Hhit. reflexivity.
Qed.

Lemma act_miss (this : Stagehand W) (action : string) (ok : bool) (w0 w1 w2 : W)
    (els : string * gmap string string) (response : JSVal) :
  actions this !! getKey this action = None ->
  waitForDomSettle E (page this) = (ok, w0) ->
  processElements E w0 = (els, w1) ->
  inference_act E action els.1 w1 = (response, w2) ->
  act E action this
  = prepend [Settle ok; Snapshot; OracleActions action els.1 response]
      (perform_fresh E els.2 response (setPage w2 this)).
Proof.
  intros Hmiss Hwait Hsnap Horacle.
  unfold act, waitForSettledDom.
  rewrite bind_bind, (bind_extern _ _ _ _ _ Hwait), bind_emit.
  change (actions (setPage w0 this) !! getKey (setPage w0 this) action)
    with (actions this !! getKey this action).
  rewrite Hmiss. unfold snapshot.
  rewrite !bind_bind.
  rewrite (bind_extern _ _ (setPage w0 this) els w1 Hsnap).
  rewrite bind_bind, bind_emit, bind_ret. cbn [fst snd].
  rewrite (bind_extern _ _ (setPage w1 (setPage w0 this)) response w2 Horacle).
  rewrite bind_emit, !prepend_prepend. reflexivity.
Qed.

End Act.

(** ** The claims about [observe] *)

(** C10. Whenever [observe] returns a value other than null, on the hit
    path or after a fresh resolution, that value is [getKey] of the
    instruction; two successful calls with the same instruction text, on
    whatever objects, therefore return the same key. *)
Theorem observe_returns_the_key {W : Type} (E : Collaborators W)
    (this this' : Stagehand W) (instruction k k' : string) :
  outcome (observe E instruction this) = inr (Some k) ->
  outcome (observe E instruction this') = inr (Some k') ->
  k = getKey this instruction /\ k' = k.
Proof.
  intros H H'.
  apply observe_key in H. apply observe_key in H'.
  split; [exact H |]. rewrite H, H'. reflexivity.
Qed.

Lemma observe_returns_the_key_witness :
  let E := Demo.collaborators [] in
  let this := constructor false false ∅ ∅ Demo.submit_page in
  let this' := after (observe E "the submit button" this) in
  exists k k',
    outcome (observe E "the submit button" this) = inr (Some k) /\
    outcome (observe E "the submit button" this') = inr (Some k') /\
    k = getKey this "the submit button" /\ k' = k.
Proof.
  intros E this this'.
  exists (SHA256.hexdigest "the submit button"), (SHA256.hexdigest "the submit button").
  assert (H : outcome (observe E "the submit button" this)
              = inr (Some (SHA256.hexdigest "the submit button"))).
  { vm_compute. reflexivity. }
  assert (H' : outcome (observe E "the submit button" this')
               = inr (Some (SHA256.hexdigest "the submit button"))).
  { vm_compute. reflexivity. }
  split; [exact H |]. split; [exact H' |].
  exact (observe_returns_the_key E this this' "the submit button" _ _ H H').
Defined.

(** C4. If the target locator of [observe] has no attached element in the
    live document, the call ends in the error of the attachment check and
    writes nothing. On a hit the locator is the one read from the mirror; on
    a miss it is xpath= followed by the entry of the selector map for the
    element id that the oracle answered. In both cases the run is fixed: the
    object changes in its page only, so both observation stores (the mirror
    and the persistent table) and the action stores are as they were. *)
Theorem observe_unattached_target_fails_clean {W : Type} (E : Collaborators W)
    (this : Stagehand W) (instruction : string) :
  (forall (locator : string) (w : W),
     cached_locator this instruction = Some locator ->
     toBeAttached E locator (page this) = (false, w) ->
     observe E instruction this
     = (inl (NotAttached locator), setPage w this, [ExpectAttached locator false]) /\
     observations (after (observe E instruction this)) = observations this /\
     cache (after (observe E instruction this)) = cache this /\
     actions (after (observe E instruction this)) = actions this) /\
  (forall (els : string * gmap string string) (w1 w2 w3 : W) (elementId : string),
     cached_locator this instruction = None ->
     processElements E (page this) = (els, w1) ->
     chat_completions_create E instruction els.1 w1 = (Some elementId, w2) ->
     elementId <> "" ->
     elementId <> "NONE" ->
     plain_key els.2 elementId ->
     toBeAttached E ("xpath=" +:+ default "undefined" (els.2 !! elementId)) w2
     = (false, w3) ->
     observe E instruction this
     = (inl (NotAttached ("xpath=" +:+ default "undefined" (els.2 !! elementId))),
        setPage w3 this,
        [Snapshot; OracleLocator instruction els.1 (Some elementId);
         ExpectAttached ("xpath=" +:+ default "undefined" (els.2 !! elementId)) false]) /\
     observations (after (observe E instruction this)) = observations this /\
     cache (after (observe E instruction this)) = cache this /\
     actions (after (observe E instruction this)) = actions this).
Proof.
  split.
  - intros locator w Hc Ha.
    rewrite (observe_hit E this instruction locator false w Hc Ha).
    repeat split.
  - intros els w1 w2 w3 elementId Hc Hs Ho Hne Hnone _ Ha.
    rewrite (observe_miss E this instruction els w1 w2 (Some elementId) Hc Hs Ho).
    apply String.eqb_neq in Hne. apply String.eqb_neq in Hnone.
    cbn [truthy_string]. rewrite Hne, Hnone. cbv zeta. rewrite Ha.
    repeat split.
Qed.

Lemma observe_unattached_target_fails_clean_witness :
  let E := Demo.collaborators [] in
  let fresh := constructor false false ∅ ∅ Demo.empty_page in
  let hit := setPage Demo.empty_page
               (after (observe E "the submit button"
                         (constructor false false ∅ ∅ Demo.submit_page))) in
  let locator := "xpath=//button[@id='submit']" in
  let els : string * gmap string string :=
    (Demo.outputString Demo.empty_page, list_to_map (Demo.selectorMap Demo.empty_page)) in
  let built := "xpath=" +:+ default "undefined" (els.2 !! "7") in
  (observe E "the submit button" hit
   = (inl (NotAttached locator), setPage Demo.empty_page hit,
      [ExpectAttached locator false]) /\
   observations (after (observe E "the submit button" hit)) = observations hit /\
   cache (after (observe E "the submit button" hit)) = cache hit /\
   actions (after (observe E "the submit button" hit)) = actions hit) /\
  (observe E "the submit button" fresh
   = (inl (NotAttached built), setPage (Demo.asked Demo.empty_page) fresh,
      [Snapshot; OracleLocator "the submit button" els.1 (Some "7");
       ExpectAttached built false]) /\
   observations (after (observe E "the submit button" fresh)) = observations fresh /\
   cache (after (observe E "the submit button" fresh)) = cache fresh /\
   actions (after (observe E "the submit button" fresh)) = actions fresh) /\
  built = locator.
Proof.
  intros E fresh hit locator els built. split; [| split].
  - apply (proj1 (observe_unattached_target_fails_clean E hit "the submit button")
             locator Demo.empty_page).
    + vm_compute. reflexivity.
    + reflexivity.
  - apply (proj2 (observe_unattached_target_fails_clean E fresh "the submit button")
             els Demo.empty_page (Demo.asked Demo.empty_page)
             (Demo.asked Demo.empty_page) "7").
    + reflexivity.
    + reflexivity.
    + reflexivity.
    + discriminate.
    + discriminate.
    + left. eexists. reflexivity.
    + reflexivity.
  - reflexivity.
Defined.

(** C5. On a cache miss, when the locator oracle answers the not-found
    sentinel NONE, [observe] returns null without an error, after one
    snapshot and one oracle query; nothing of the object changes but the
    page, so no observation is written to the mirror or to the persistent
    table. *)
Theorem observe_not_found_returns_null {W : Type} (E : Collaborators W)
    (this : Stagehand W) (instruction : string)
    (els : string * gmap string string) (w1 w2 : W) :
  cached_locator this instruction = None ->
  processElements E (page this) = (els, w1) ->
  chat_completions_create E instruction els.1 w1 = (Some "NONE", w2) ->
  observe E instruction this
  = (inr None, setPage w2 this, [Snapshot; OracleLocator instruction els.1 (Some "NONE")]) /\
  observations (after (observe E instruction this)) = observations this /\
  cache (after (observe E instruction this)) = cache this.
Proof.
  intros Hc Hs Ho.
  rewrite (observe_miss E this instruction els w1 w2 (Some "NONE") Hc Hs Ho).
  cbn. repeat split.
Qed.

Lemma observe_not_found_returns_null_witness :
  let E := Demo.collaborators [] in
  let w := Demo.answering (Some "NONE") JNull Demo.submit_page in
  let this := constructor false false ∅ ∅ w in
  let dom := Demo.outputString w in
  observe E "the price label" this
  = (inr None, setPage (Demo.asked w) this,
     [Snapshot; OracleLocator "the price label" dom (Some "NONE")]) /\
  observations (after (observe E "the price label" this)) = observations this /\
  cache (after (observe E "the price label" this)) = cache this.
Proof.
  intros E w this dom.
  apply (observe_not_found_returns_null E this "the price label"
           (dom, list_to_map (Demo.selectorMap w)) w (Demo.asked w)).
  - reflexivity.
  - reflexivity.
  - reflexivity.
Defined.

(** C6. After an [observe] that returned a key, the mirror holds a usable
    locator for the instruction, and a second [observe] with the same text,
    whatever the page has become, only checks that locator: it makes no
    oracle query, and returns the same key when the locator still resolves to
    an attached element. *)
Theorem observe_again_skips_the_oracle {W : Type} (E : Collaborators W)
    (this : Stagehand W) (instruction k : string) :
  outcome (observe E instruction this) = inr (Some k) ->
  exists locator,
    cached_locator (after (observe E instruction this)) instruction = Some locator /\
    forall w : W,
      let again := observe E instruction (setPage w (after (observe E instruction this))) in
      trace again = [ExpectAttached locator (toBeAttached E locator w).1] /\
      oracle_calls (trace again) = 0 /\
      ((toBeAttached E locator w).1 = true -> outcome again = inr (Some k)).
Proof.
  intros Hfirst.
  destruct (observe_success_cached E this instruction k Hfirst) as [locator Hc].
  pose proof (observe_key E this instruction k Hfirst) as Hk.
  exists locator. split; [exact Hc |].
  intros w again. subst again.
  set (this1 := after (observe E instruction this)) in *.
  destruct (toBeAttached E locator w) as [ok w'] eqn:Ha.
  rewrite (observe_hit E (setPage w this1) instruction locator ok w' Hc Ha).
  unfold trace, outcome. cbn [fst snd].
  split; [reflexivity |]. split; [reflexivity |].
  intros ->. rewrite Hk. reflexivity.
Qed.

Lemma observe_again_skips_the_oracle_witness :
  let E := Demo.collaborators [] in
  let this := constructor false false ∅ ∅ Demo.submit_page in
  exists locator,
    cached_locator (after (observe E "the submit button" this)) "the submit button"
    = Some locator /\
    forall w : Demo.World,
      let again :=
        observe E "the submit button"
          (setPage w (after (observe E "the submit button" this))) in
      trace again = [ExpectAttached locator (toBeAttached E locator w).1] /\
      oracle_calls (trace again) = 0 /\
      ((toBeAttached E locator w).1 = true ->
       outcome again = inr (Some (SHA256.hexdigest "the submit button"))).
Proof.
  intros E this.
  apply (observe_again_skips_the_oracle E this "the submit button"
           (SHA256.hexdigest "the submit button")).
  vm_compute. reflexivity.
Defined.

(** ** The claims about [act] *)

Section ActProperties.

Context {W : Type} (E : Collaborators W).

Lemma silent_waitForSettledDom (P : Event -> bool) :
  (forall ok, P (Settle ok) = false) -> silent P (waitForSettledDom E).
Proof. intros HP. unfold waitForSettledDom. frame. Qed.

Lemma silent_replay_stored (P : Event -> bool) (text : string) :
  quiet_filter P -> silent P (replay_stored E text).
Proof.
  intros HP. unfold replay_stored.
  frame; auto using silent_normalize, silent_replay.
Qed.

Lemma silent_perform_fresh (P : Event -> bool) (selectorMap : gmap string string)
    (response : JSVal) :
  quiet_filter P -> (forall ok, P (Settle ok) = false) ->
  silent P (perform_fresh E selectorMap response).
Proof.
  intros HP HS. unfold perform_fresh.
  frame; auto using silent_normalize, silent_perform, silent_waitForSettledDom.
Qed.

Lemma run_waitForSettledDom (this : Stagehand W) :
  waitForSettledDom E this
  = (inr tt, setPage (waitForDomSettle E (page this)).2 this,
     [Settle (waitForDomSettle E (page this)).1]).
Proof.
  unfold waitForSettledDom, bind, extern, emit.
  destruct (waitForDomSettle E (page this)) as [ok w]. reflexivity.
Qed.

(** A miss queries the action oracle exactly once. *)
Lemma act_miss_queries_once (this : Stagehand W) (action : string) :
  actions this !! getKey this action = None ->
  oracle_calls (trace (act E action this)) = 1.
Proof.
  intros Hmiss.
  destruct (waitForDomSettle E (page this)) as [ok w0] eqn:Hw.
  destruct (processElements E w0) as [els w1] eqn:Hs.
  destruct (inference_act E action els.1 w1) as [response w2] eqn:Ho.
  rewrite (act_miss E this action ok w0 w1 w2 els response Hmiss Hw Hs Ho).
  unfold oracle_calls, prepend, trace. cbn [fst snd app List.filter is_oracle].
  pose proof (silent_perform_fresh is_oracle els.2 response
                (fun _ _ _ _ => eq_refl) (fun _ => eq_refl)) as Hsilent.
  unfold silent, trace in Hsilent. rewrite Hsilent. reflexivity.
Qed.

(** On a hit the only wait for quiescence is the one that opens the call. *)
Lemma act_hit_settles_first_only (this : Stagehand W) (action : string)
    (cachedAction : CacheEntry) :
  actions this !! getKey this action = Some cachedAction ->
  exists t,
    trace (act E action this) = Settle (waitForDomSettle E (page this)).1 :: t /\
    List.filter is_settle t = [].
Proof.
  intros Hhit.
  destruct (waitForDomSettle E (page this)) as [ok w0] eqn:Hw.
  rewrite (act_hit E this action cachedAction ok w0 Hhit Hw).
  exists (trace (replay_stored E (result cachedAction) (setPage w0 this))).
  split; [reflexivity |].
  exact (silent_replay_stored is_settle (result cachedAction)
           (fun _ _ _ _ => eq_refl) (setPage w0 this)).
Qed.

(** On a miss, a call that returns has waited for quiescence last. *)
Lemma act_miss_settles_last (this : Stagehand W) (action : string) :
  actions this !! getKey this action = None ->
  outcome (act E action this) = inr tt ->
  exists t ok, trace (act E action this) = t ++ [Settle ok].
Proof.
  intros Hmiss.
  destruct (waitForDomSettle E (page this)) as [ok w0] eqn:Hw.
  destruct (processElements E w0) as [els w1] eqn:Hs.
  destruct (inference_act E action els.1 w1) as [response w2] eqn:Ho.
  rewrite (act_miss E this action ok w0 w1 w2 els response Hmiss Hw Hs Ho).
  unfold perform_fresh. rewrite bind_run.
  destruct (normalize response (setPage w2 this)) as [[[e | commands] this1] t1];
    [discriminate |].
  rewrite bind_run.
  destruct (for_of commands (perform E els.2) this1) as [[[e | []] this2] t2];
    [discriminate |].
  rewrite run_waitForSettledDom. intros _.
  exists ([Settle ok; Snapshot; OracleActions action els.1 response] ++ t1 ++ t2),
    (waitForDomSettle E (page this2)).1.
  unfold prepend, trace, outcome, after. cbn [fst snd].
  rewrite <- !app_assoc. reflexivity.
Qed.

End ActProperties.

(** ** Replaying a stored command *)

Section Replay.

Context {W : Type} (E : Collaborators W).

Lemma normalize_command (c : Command) (this : Stagehand W) :
  normalize (command_value c) this = (inr [command_value c], this, []).
Proof. reflexivity. Qed.

Lemma normalize_singleton (v : JSVal) (this : Stagehand W) :
  normalize (JArr [v]) this = (inr [v], this, []).
Proof. reflexivity. Qed.

Lemma replay_command (this : Stagehand W) (c : Command) (thrown : option Error) (w : W) :
  js_toString (JArr (cmd_args c)) <> None ->
  locator_call E (JStr (cmd_locator c)) (cmd_method c) (cmd_args c) (page this)
  = (thrown, w) ->
  replay E (command_value c) this
  = (match thrown with
     | Some e => inl e
     | None => inr tt
     end,
     setPage w this,
     [Interaction (JStr (cmd_locator c)) (cmd_method c) (cmd_args c) thrown]).
Proof.
  intros Hargs Hcall.
  destruct (js_toString (JArr (cmd_args c))) as [printed |] eqn:Hprint; [| congruence].
  unfold replay, command_value.
  cbn [js_get own String.eqb Ascii.eqb Bool.eqb default from_option Datatypes.id lift].
  rewrite !bind_ret.
  unfold template. cbn [for_of].
  rewrite Hprint.
  unfold invoke. cbn [js_toString or_throw js_iter lift].
  steps.
  rewrite (bind_extern _ _ _ _ _ Hcall), bind_emit.
  destruct thrown; reflexivity.
Qed.

(** The replay of a text that denotes either shape of one command. *)
Lemma replay_stored_one (this : Stagehand W) (text : string) (c : Command)
    (thrown : option Error) (w : W) :
  JSON_parse E text = Some (command_value c) \/
  JSON_parse E text = Some (JArr [command_value c]) ->
  js_toString (JArr (cmd_args c)) <> None ->
  locator_call E (JStr (cmd_locator c)) (cmd_method c) (cmd_args c) (page this)
  = (thrown, w) ->
  replay_stored E text this
  = (match thrown with
     | Some e => inl e
     | None => inr tt
     end,
     setPage w this,
     [Interaction (JStr (cmd_locator c)) (cmd_method c) (cmd_args c) thrown]).
Proof.
  intros Hparse Hargs Hcall.
  unfold replay_stored.
  assert (Hnorm : forall this' : Stagehand W,
             (bind (or_throw SyntaxError (JSON_parse E text)) normalize) this'
             = (inr [command_value c], this', [])).
  { intros this'. destruct Hparse as [-> | ->]; cbn [or_throw]; rewrite bind_ret.
    - apply normalize_command.
    - apply normalize_singleton. }
  rewrite <- bind_bind, bind_run, Hnorm.
  cbn [for_of]. rewrite prepend_nil, bind_run, (replay_command this c thrown w Hargs Hcall).
  destruct thrown; reflexivity.
Qed.

End Replay.

(** C7. On the hit path of [act], a stored text that denotes a single
    command and one that denotes the one-element list of that command are
    executed alike: from the same page both calls end with the same outcome,
    the same events and the same page, and exactly one interaction is made,
    on the command's locator with its method and arguments. *)
Theorem act_replays_single_and_singleton_alike {W : Type} (E : Collaborators W)
    (this1 this2 : Stagehand W) (action : string) (c : Command)
    (single listed : CacheEntry) :
  actions this1 !! getKey this1 action = Some single ->
  actions this2 !! getKey this2 action = Some listed ->
  JSON_parse E (result single) = Some (command_value c) ->
  JSON_parse E (result listed) = Some (JArr [command_value c]) ->
  js_toString (JArr (cmd_args c)) <> None ->
  page this1 = page this2 ->
  outcome (act E action this1) = outcome (act E action this2) /\
  trace (act E action this1) = trace (act E action this2) /\
  page (after (act E action this1)) = page (after (act E action this2)) /\
  exists thrown,
    interactions (trace (act E action this1))
    = [Interaction (JStr (cmd_locator c)) (cmd_method c) (cmd_args c) thrown].
Proof.
  intros Hhit1 Hhit2 Hsingle Hlisted Hargs Hpage.
  destruct (waitForDomSettle E (page this1)) as [ok w0] eqn:Hw1.
  assert (Hw2 : waitForDomSettle E (page this2) = (ok, w0)) by (rewrite <- Hpage; exact Hw1).
  destruct (locator_call E (JStr (cmd_locator c)) (cmd_method c) (cmd_args c) w0)
    as [thrown w] eqn:Hcall.
  rewrite (act_hit E this1 action single ok w0 Hhit1 Hw1).
  rewrite (act_hit E this2 action listed ok w0 Hhit2 Hw2).
  rewrite (replay_stored_one E (setPage w0 this1) (result single) c thrown w
             (or_introl Hsingle) Hargs Hcall).
  rewrite (replay_stored_one E (setPage w0 this2) (result listed) c thrown w
             (or_intror Hlisted) Hargs Hcall).
  repeat split. exists thrown. reflexivity.
Qed.

Lemma act_replays_single_and_singleton_alike_witness :
  let c := Demo.click_submit in
  let E := Demo.collaborators [command_value c; JArr [command_value c]] in
  let key := SHA256.hexdigest "click on Submit" in
  let this1 := constructor false false ∅ {[ key := Demo.stored (command_value c) ]}
                 Demo.submit_page in
  let this2 := constructor false false ∅ {[ key := Demo.stored (JArr [command_value c]) ]}
                 Demo.submit_page in
  outcome (act E "click on Submit" this1) = outcome (act E "click on Submit" this2) /\
  trace (act E "click on Submit" this1) = trace (act E "click on Submit" this2) /\
  page (after (act E "click on Submit" this1))
  = page (after (act E "click on Submit" this2)) /\
  exists thrown,
    interactions (trace (act E "click on Submit" this1))
    = [Interaction (JStr (cmd_locator c)) (cmd_method c) (cmd_args c) thrown].
Proof.
  intros c E key this1 this2.
  apply (act_replays_single_and_singleton_alike E this1 this2 "click on Submit" c
           (Demo.stored (command_value c)) (Demo.stored (JArr [command_value c]))).
  - vm_compute. reflexivity.
  - vm_compute. reflexivity.
  - vm_compute. reflexivity.
  - vm_compute. reflexivity.
  - vm_compute. discriminate.
  - reflexivity.
Defined.

(** Arguments made of primitive values can always be printed. *)
Lemma primitive_args_print (args : list JSVal) :
  forallb primitive args = true -> js_toString (JArr args) <> None.
Proof.
  induction args as [| v rest IH]; [discriminate |].
  cbn [forallb]. intros Hall. apply andb_prop in Hall as [Hv Hrest].
  specialize (IH Hrest).
  destruct (js_toString (JArr rest)) as [printed |] eqn:Hrest'; [| congruence].
  cbn [js_toString] in Hrest' |- *.
  destruct v; try discriminate Hv; cbn [js_toString];
    destruct rest; try discriminate; rewrite Hrest'; discriminate.
Qed.

(** C8. An empty or missing oracle answer is a hard error, raised in the
    call that received it, after a single oracle query and with no cache
    written. For [observe] the answer is a null or empty element id, which
    the test on the content rejects; for [act] it is an empty command list,
    a null or undefined response, an empty text or an empty object, on which
    the normalisation and the execution of the answer raise a TypeError
    before any interaction. In both cases the object changes in its page
    only. *)
Theorem empty_oracle_answer_is_a_hard_error {W : Type} (E : Collaborators W)
    (this : Stagehand W) (instruction : string) (ok : bool) (w0 w1 w2 : W)
    (els : string * gmap string string) :
  (forall content : option string,
     cached_locator this instruction = None ->
     processElements E (page this) = (els, w1) ->
     chat_completions_create E instruction els.1 w1 = (content, w2) ->
     content = None \/ content = Some "" ->
     observe E instruction this
     = (inl NoResponse, setPage w2 this,
        [Snapshot; OracleLocator instruction els.1 content])) /\
  (forall response : JSVal,
     actions this !! getKey this instruction = None ->
     waitForDomSettle E (page this) = (ok, w0) ->
     processElements E w0 = (els, w1) ->
     inference_act E instruction els.1 w1 = (response, w2) ->
     In response [JArr []; JNull; JUndefined; JStr ""; JObj []] ->
     act E instruction this
     = (inl TypeError, setPage w2 this,
        [Settle ok; Snapshot; OracleActions instruction els.1 response])).
Proof.
  split.
  - intros content Hc Hs Ho Hempty.
    rewrite (observe_miss E this instruction els w1 w2 content Hc Hs Ho).
    destruct Hempty as [-> | ->]; reflexivity.
  - intros response Hmiss Hw Hs Ho Hempty.
    rewrite (act_miss E this instruction ok w0 w1 w2 els response Hmiss Hw Hs Ho).
    cbn [In] in Hempty.
    destruct Hempty as [<- | [<- | [<- | [<- | [<- | []]]]]]; reflexivity.
Qed.

Lemma empty_oracle_answer_is_a_hard_error_witness :
  let E := Demo.collaborators [] in
  let w := Demo.answering (Some "") (JArr []) Demo.submit_page in
  let this := constructor false false ∅ ∅ w in
  let dom := Demo.outputString w in
  observe E "the price label" this
  = (inl NoResponse, setPage (Demo.asked w) this,
     [Snapshot; OracleLocator "the price label" dom (Some "")]) /\
  act E "the price label" this
  = (inl TypeError, setPage (Demo.asked w) this,
     [Settle true; Snapshot; OracleActions "the price label" dom (JArr [])]).
Proof.
  intros E w this dom.
  pose proof (empty_oracle_answer_is_a_hard_error E this "the price label" true
                w w (Demo.asked w) (dom, list_to_map (Demo.selectorMap w))) as [Hobserve Hact].
  split.
  - apply (Hobserve (Some "")); try reflexivity. right. reflexivity.
  - apply (Hact (JArr [])); try reflexivity. left. reflexivity.
Defined.

(** C3. An [act] that misses the cache persists nothing: after the call the
    mirror of the actions, the persistent tables and the mirror of the
    observations are what they were, and the same instruction, repeated on
    whatever the page has become, queries the action oracle again. *)
Theorem act_miss_is_not_persisted {W : Type} (E : Collaborators W)
    (this : Stagehand W) (action : string) :
  actions this !! getKey this action = None ->
  actions (after (act E action this)) = actions this /\
  cache (after (act E action this)) = cache this /\
  observations (after (act E action this)) = observations this /\
  oracle_calls (trace (act E action this)) = 1 /\
  forall w : W,
    oracle_calls (trace (act E action (setPage w (after (act E action this))))) = 1.
Proof.
  intros Hmiss.
  pose proof (keeps_act E action this) as Hkeep.
  unfold caches in Hkeep. injection Hkeep as Hobs Hact Hcache.
  split; [exact Hact |]. split; [exact Hcache |]. split; [exact Hobs |].
  split; [apply act_miss_queries_once; exact Hmiss |].
  intros w. apply act_miss_queries_once.
  change (actions (after (act E action this)) !! getKey this action = None).
  rewrite Hact. exact Hmiss.
Qed.

Lemma act_miss_is_not_persisted_witness :
  let E := Demo.collaborators [] in
  let this := constructor false false ∅ ∅ Demo.submit_page in
  actions (after (act E "click on Submit" this)) = actions this /\
  cache (after (act E "click on Submit" this)) = cache this /\
  observations (after (act E "click on Submit" this)) = observations this /\
  oracle_calls (trace (act E "click on Submit" this)) = 1 /\
  forall w : Demo.World,
    oracle_calls
      (trace (act E "click on Submit" (setPage w (after (act E "click on Submit" this)))))
    = 1.
Proof.
  intros E this.
  apply (act_miss_is_not_persisted E this "click on Submit").
  reflexivity.
Defined.

(** C1. The claim is that [act] waits for quiescence after its commands on
    both paths. On the hit path it does not: with the command that clicks the
    submit button stored under the instruction, the call waits once, on
    entry, replays the click and returns; no wait follows the interaction. *)
Theorem act_cache_hit_returns_without_settling :
  let c := Demo.click_submit in
  let E := Demo.collaborators [command_value c] in
  let key := SHA256.hexdigest "click on Submit" in
  let this := constructor false false ∅ {[ key := Demo.stored (command_value c) ]}
                Demo.submit_page in
  outcome (act E "click on Submit" this) = inr tt /\
  trace (act E "click on Submit" this)
  = [Settle true; Interaction (JStr "xpath=//button[@id='submit']") "click" [] None] /\
  last (trace (act E "click on Submit" this))
  <> Some (Settle true).
Proof.
  vm_compute. repeat split. discriminate.
Qed.

(** The same instruction on the miss path: the wait closes the call. *)
Example act_cache_miss_settles_last :
  let E := Demo.collaborators [] in
  let this := constructor false false ∅ ∅ Demo.submit_page in
  outcome (act E "click on Submit" this) = inr tt /\
  last (trace (act E "click on Submit" this)) = Some (Settle true).
Proof. vm_compute. split; reflexivity. Qed.

(** C2. The claim is that with caching disabled every resolution reaches
    the oracle. For [observe] it does not: an object built with
    [disableCache] set resolves the instruction through the oracle once,
    keeps the locator in its mirror although the persistent table stays
    closed, and answers the repeated call from the mirror without a query. *)
Theorem observe_with_cache_disabled_skips_the_oracle :
  let E := Demo.collaborators [] in
  let this := constructor true false ∅ ∅ Demo.submit_page in
  let first := observe E "the submit button" this in
  let second := observe E "the submit button" (after first) in
  disabled (cache this) = true /\
  oracle_calls (trace first) = 1 /\
  cache (after first) = cache this /\
  cached_locator (after first) "the submit button" = Some "xpath=//button[@id='submit']" /\
  outcome second = inr (Some (SHA256.hexdigest "the submit button")) /\
  trace second = [ExpectAttached "xpath=//button[@id='submit']" true] /\
  oracle_calls (trace second) = 0 /\
  Demo.queries (page (after second)) = 1.
Proof.
  vm_compute. repeat split.
Qed.

(** The defect does not depend on the page or on the oracle: whatever an
    object built with [disableCache] set resolved once, it answers from its
    mirror afterwards. *)
Lemma observe_mirror_ignores_disableCache {W : Type} (E : Collaborators W)
    (verbose : bool) (stored_observations stored_actions : gmap string CacheEntry)
    (w : W) (instruction k : string) :
  let this := constructor true verbose stored_observations stored_actions w in
  outcome (observe E instruction this) = inr (Some k) ->
  forall w' : W,
    oracle_calls
      (trace (observe E instruction (setPage w' (after (observe E instruction this)))))
    = 0.
Proof.
  intros this Hfirst w'.
  destruct (observe_success_cached E this instruction k Hfirst) as [locator Hc].
  destruct (toBeAttached E locator w') as [ok w''] eqn:Ha.
  rewrite (observe_hit E (setPage w' (after (observe E instruction this)))
             instruction locator ok w'' Hc Ha).
  reflexivity.
Qed.

(** The part of C2 about [act] holds: an object built with [disableCache]
    set starts with an empty mirror of actions, [act] never fills it, and
    each of two consecutive identical calls queries the oracle. *)
Lemma act_with_cache_disabled_queries_the_oracle {W : Type} (E : Collaborators W)
    (verbose : bool) (stored_observations stored_actions : gmap string CacheEntry)
    (w : W) (action : string) :
  let this := constructor true verbose stored_observations stored_actions w in
  oracle_calls (trace (act E action this)) = 1 /\
  oracle_calls (trace (act E action (after (act E action this)))) = 1.
Proof.
  intros this.
  assert (Hmiss : actions this !! getKey this action = None) by apply lookup_empty.
  split; [apply act_miss_queries_once; exact Hmiss |].
  apply act_miss_queries_once.
  pose proof (keeps_act E action this) as Hkeep.
  unfold caches in Hkeep. injection Hkeep as _ Hact _.
  change (actions (after (act E action this)) !! getKey this action = None).
  rewrite Hact. exact Hmiss.
Qed.

(** So does the first [observe] of an object built with [disableCache] set. *)
Lemma first_observe_with_cache_disabled_queries_the_oracle {W : Type}
    (E : Collaborators W) (verbose : bool)
    (stored_observations stored_actions : gmap string CacheEntry) (w : W)
    (instruction : string) :
  let this := constructor true verbose stored_observations stored_actions w in
  exists t, trace (observe E instruction this) = Snapshot :: t /\ oracle_calls t >= 1.
Proof.
  intros this.
  assert (Hmiss : cached_locator this instruction = None).
  { unfold cached_locator. cbn. rewrite lookup_empty. reflexivity. }
  destruct (processElements E (page this)) as [els w1] eqn:Hs.
  destruct (chat_completions_create E instruction els.1 w1) as [content w2] eqn:Ho.
  rewrite (observe_miss E this instruction els w1 w2 content Hmiss Hs Ho).
  destruct (truthy_string content) as [elementId |].
  - destruct (String.eqb elementId "NONE").
    + eexists. split; [reflexivity |]. cbn. lia.
    + cbv zeta. destruct (toBeAttached E _ w2) as [[|] w3];
        (eexists; split; [reflexivity |]; cbn; lia).
  - eexists. split; [reflexivity |]. cbn. lia.
Qed.

(** * Beyond the claims *)

(** ** What a call leaves alone *)

Section Preserves.

Context {W X : Type} (f : Stagehand W -> X).
Hypothesis f_page : forall (w : W) (this : Stagehand W), f (setPage w this) = f this.

Lemma preserves_ret {A : Type} (a : A) : preserves f (ret (W := W) a).
Proof. intros this. reflexivity. Qed.

Lemma preserves_throw {A : Type} (e : Error) : preserves f (throw (W := W) (A := A) e).
Proof. intros this. reflexivity. Qed.

Lemma preserves_emit (e : Event) : preserves f (emit (W := W) e).
Proof. intros this. reflexivity. Qed.

Lemma preserves_extern {A : Type} (g : W -> A * W) : preserves f (extern g).
Proof.
  intros this. unfold extern. destruct (g (page this)) as [a w].
  unfold after. cbn [fst snd]. apply f_page.
Qed.

Lemma preserves_lift {A : Type} (r : Error + A) : preserves f (lift (W := W) r).
Proof. destruct r; intros this; reflexivity. Qed.

Lemma preserves_or_throw {A : Type} (e : Error) (o : option A) :
  preserves f (or_throw (W := W) e o).
Proof. destruct o; intros this; reflexivity. Qed.

Lemma preserves_bind {A B : Type} (m : M W A) (k : A -> M W B) :
  preserves f m -> (forall a, preserves f (k a)) -> preserves f (bind m k).
Proof.
  intros Hm Hk this. rewrite bind_run.
  specialize (Hm this).
  destruct (m this) as [[[e | a] this1] t1]; [exact Hm |].
  unfold after in Hm. cbn [fst snd] in Hm.
  unfold prepend, after at 1. cbn [fst snd]. rewrite Hk. exact Hm.
Qed.

Lemma preserves_for_of {A : Type} (xs : list A) (body : A -> M W unit) :
  (forall x, preserves f (body x)) -> preserves f (for_of xs body).
Proof.
  intros Hbody. induction xs as [| x rest IH]; cbn [for_of].
  - apply preserves_ret.
  - apply preserves_bind; [apply Hbody | intros _; exact IH].
Qed.

End Preserves.

Ltac preserve_step :=
  match goal with
  | |- preserves _ (bind _ _) => apply preserves_bind; [| intros ?]
  | |- preserves _ (for_of _ _) => apply preserves_for_of; intros ?
  | |- preserves _ (match ?x with _ => _ end) => destruct x
  | |- preserves _ (ret _) => apply preserves_ret
  | |- preserves _ (throw _) => apply preserves_throw
  | |- preserves _ (emit _) => apply preserves_emit
  | |- preserves _ (extern _) => apply preserves_extern; assumption
  | |- preserves _ (lift _) => apply preserves_lift
  | |- preserves _ (or_throw _ _) => apply preserves_or_throw
  end.

Ltac preserve := repeat preserve_step.

Section ActFrame.

Context {W X : Type} (E : Collaborators W) (f : Stagehand W -> X).
Hypothesis f_page : forall (w : W) (this : Stagehand W), f (setPage w this) = f this.

Lemma preserves_waitForSettledDom : preserves f (waitForSettledDom E).
Proof. unfold waitForSettledDom. preserve. Qed.

Lemma preserves_invoke (selector method args : JSVal) :
  preserves f (invoke E selector method args).
Proof. unfold invoke. preserve. Qed.

Lemma preserves_replay (command : JSVal) : preserves f (replay E command).
Proof. unfold replay, template. preserve. apply preserves_invoke. Qed.

Lemma preserves_perform (selectorMap : gmap string string) (command : JSVal) :
  preserves f (perform E selectorMap command).
Proof. unfold perform, template. preserve. apply preserves_invoke. Qed.

Lemma preserves_normalize (res : JSVal) : preserves f (normalize (W := W) res).
Proof. unfold normalize. preserve. Qed.

Lemma preserves_act (action : string) : preserves f (act E action).
Proof.
  unfold act. apply preserves_bind; [apply preserves_waitForSettledDom |].
  intros _ this.
  cbv zeta.
  destruct (actions this !! getKey this action) as [cachedAction |];
    match goal with
    | |- f (after (?m this)) = f this =>
        assert (Hm : preserves f m); [| exact (Hm this)]
    end.
  - preserve; auto using preserves_normalize, preserves_replay.
  - unfold snapshot. preserve;
      auto using preserves_normalize, preserves_perform, preserves_waitForSettledDom.
Qed.

End ActFrame.

(** ** The effect of one call on the object *)

Lemma frame_of_setPage {W : Type} (w : W) (this : Stagehand W) :
  frame_of (setPage w this) = frame_of this.
Proof. reflexivity. Qed.

Lemma same_frame {W : Type} (a b : Stagehand W) :
  frame_of a = frame_of b -> a = setPage (page a) b.
Proof.
  destruct a, b. unfold frame_of, setPage. cbn.
  intros [= -> -> -> -> ->]. reflexivity.
Qed.

Lemma act_effect {W : Type} (E : Collaborators W) (this : Stagehand W) (action : string) :
  exists w, after (act E action this) = setPage w this.
Proof.
  exists (page (after (act E action this))).
  apply same_frame. apply (preserves_act E frame_of frame_of_setPage).
Qed.

Lemma observe_effect {W : Type} (E : Collaborators W) (this : Stagehand W)
    (observation : string) :
  (exists w, after (observe E observation this) = setPage w this) \/
  (cached_locator this observation = None /\
   outcome (observe E observation this) = inr (Some (getKey this observation)) /\
   exists path w,
     after (observe E observation this)
     = remembered this observation ("xpath=" +:+ path) w).
Proof.
  destruct (cached_locator this observation) as [locator |] eqn:Hc.
  - destruct (toBeAttached E locator (page this)) as [ok w] eqn:Ha.
    rewrite (observe_hit E this observation locator ok w Hc Ha).
    left. exists w. reflexivity.
  - destruct (processElements E (page this)) as [els w1] eqn:Hs.
    destruct (chat_completions_create E observation els.1 w1) as [content w2] eqn:Ho.
    rewrite (observe_miss E this observation els w1 w2 content Hc Hs Ho).
    destruct (truthy_string content) as [elementId |];
      [| left; exists w2; reflexivity].
    destruct (String.eqb elementId "NONE"); [left; exists w2; reflexivity |].
    cbv zeta. destruct (toBeAttached E _ w2) as [[|] w3].
    + right. split; [reflexivity |]. split; [reflexivity |].
      eexists _, w3. reflexivity.
    + left. exists w3. reflexivity.
Qed.

Lemma call_effect {W : Type} (E : Collaborators W) (c : Call W) (this : Stagehand W) :
  step_effect this (call E c this).1.
Proof.
  destruct c as [observation | action | key | w]; cbn [call fst].
  - destruct (observe_effect E this observation) as [Hpage | (Hc & _ & path & w & Heq)].
    + left. exact Hpage.
    + right. right. exists observation, path, w. split; assumption.
  - left. apply act_effect.
  - right. left. exists key. reflexivity.
  - left. exists w. reflexivity.
Qed.

(** A relation that every step respects holds across a whole session. *)
Lemma session_invariant {W : Type} (E : Collaborators W)
    (R : Stagehand W -> Stagehand W -> Prop) :
  (forall this, R this this) ->
  (forall a b c, R a b -> R b c -> R a c) ->
  (forall a b, step_effect a b -> R a b) ->
  forall (cs : list (Call W)) (this : Stagehand W), R this (session E cs this).1.
Proof.
  intros Hrefl Htrans Hstep cs.
  induction cs as [| c rest IH]; intros this; cbn [session fst].
  - apply Hrefl.
  - apply (Htrans _ (call E c this).1).
    + apply Hstep, call_effect.
    + apply IH.
Qed.

(** ** Invariants of a session *)

(** X1. [act] changes nothing of the object but its page, on the hit path
    as on the miss path and whether it returns or throws: the two mirrors,
    the persistent cache, the session identifier and the verbosity are what
    they were. *)
Theorem act_changes_only_the_page {W : Type} (E : Collaborators W)
    (this : Stagehand W) (action : string) :
  observations (after (act E action this)) = observations this /\
  actions (after (act E action this)) = actions this /\
  this_id (after (act E action this)) = this_id this /\
  cache (after (act E action this)) = cache this /\
  verbose (after (act E action this)) = verbose this.
Proof.
  pose proof (preserves_act E frame_of frame_of_setPage action this) as H.
  unfold frame_of in H. injection H as Ho Ha Hi Hc Hv.
  repeat split; assumption.
Qed.

(** X2. No sequence of [observe], [act], [setId] and [setPage] calls
    changes the mirror of the actions: it stays what the constructor
    loaded. *)
Theorem session_never_changes_the_actions {W : Type} (E : Collaborators W)
    (cs : list (Call W)) (this : Stagehand W) :
  actions (session E cs this).1 = actions this.
Proof.
  apply (session_invariant E (fun a b => actions b = actions a)).
  - reflexivity.
  - intros a b c Hab Hbc. congruence.
  - intros a b [[w ->] | [[key ->] | (observation & path & w & _ & ->)]]; reflexivity.
Qed.

Lemma truthy_string_None (s : string) : truthy_string (Some s) = None -> s = "".
Proof.
  unfold truthy_string. destruct (String.eqb s "") eqn:Heq; [| discriminate].
  intros _. apply String.eqb_eq. exact Heq.
Qed.

(** X4. An entry of the observations mirror that holds a non-empty locator
    is never overwritten nor removed by any sequence of [observe], [act],
    [setId] and [setPage] calls. *)
Theorem session_keeps_usable_entries {W : Type} (E : Collaborators W)
    (cs : list (Call W)) (this : Stagehand W) (key : string) (entry : CacheEntry) :
  observations this !! key = Some entry ->
  result entry <> "" ->
  observations (session E cs this).1 !! key = Some entry.
Proof.
  revert key entry.
  apply (session_invariant E
           (fun a b => forall key entry,
                observations a !! key = Some entry -> result entry <> "" ->
                observations b !! key = Some entry)).
  - intros a key entry H _. exact H.
  - intros a b c Hab Hbc key entry H Hne. apply Hbc; [apply Hab |]; assumption.
  - intros a b [[w ->] | [[k ->] | (observation & path & w & Hc & ->)]] key entry H Hne;
      try exact H.
    unfold remembered. cbn [observations].
    destruct (decide (getKey a observation = key)) as [<- | Hother].
    + exfalso. apply Hne. apply truthy_string_None.
      unfold cached_locator in Hc. rewrite H in Hc. exact Hc.
    + rewrite lookup_insert_ne by exact Hother. exact H.
Qed.

Lemma session_keeps_usable_entries_witness :
  let E := Demo.collaborators [] in
  let this := after (observe E "the submit button"
                       (constructor false false ∅ ∅ Demo.submit_page)) in
  let cs := [CallSetPage Demo.empty_page; CallObserve "the submit button";
             CallAct "click on Submit"; CallSetId "run-2";
             CallObserve "the price label"] in
  observations (session E cs this).1 !! SHA256.hexdigest "the submit button"
  = Some {| result := "xpath=//button[@id='submit']"; id := None |}.
Proof.
  intros E this cs.
  apply (session_keeps_usable_entries E cs this).
  - vm_compute. reflexivity.
  - discriminate.
Defined.

(** X5. Whatever the observations mirror holds after a sequence of calls
    was either there before, unchanged, or is a locator that begins with
    xpath=: [observe] stores nothing else. *)
Theorem session_only_adds_xpath_locators {W : Type} (E : Collaborators W)
    (cs : list (Call W)) (this : Stagehand W) (key : string) (entry : CacheEntry) :
  observations (session E cs this).1 !! key = Some entry ->
  observations this !! key = Some entry \/
  exists path, result entry = "xpath=" +:+ path.
Proof.
  revert key entry.
  apply (session_invariant E
           (fun a b => forall key entry,
                observations b !! key = Some entry ->
                observations a !! key = Some entry \/
                exists path, result entry = "xpath=" +:+ path)).
  - intros a key entry H. left. exact H.
  - intros a b c Hab Hbc key entry H.
    destruct (Hbc key entry H) as [Hb | Hx]; [apply Hab; exact Hb | right; exact Hx].
  - intros a b [[w ->] | [[k ->] | (observation & path & w & Hc & ->)]] key entry H;
      try (left; exact H).
    unfold remembered in H. cbn [observations] in H.
    destruct (decide (getKey a observation = key)) as [<- | Hother].
    + rewrite lookup_insert_eq in H. injection H as <-. right. exists path. reflexivity.
    + rewrite lookup_insert_ne in H by exact Hother. left. exact H.
Qed.

Lemma session_only_adds_xpath_locators_witness :
  let E := Demo.collaborators [] in
  let this := constructor false false ∅ ∅ Demo.submit_page in
  let cs : list (Call Demo.World) :=
    [CallAct "click on Submit"; CallObserve "the submit button"] in
  let entry := {| result := "xpath=//button[@id='submit']"; id := None |} in
  observations this !! SHA256.hexdigest "the submit button" = Some entry \/
  exists path, result entry = "xpath=" +:+ path.
Proof.
  intros E this cs entry.
  apply (session_only_adds_xpath_locators E cs this
           (SHA256.hexdigest "the submit button") entry).
  vm_compute. reflexivity.
Defined.

(** ** Counting the oracle queries of a session *)

Section Counting.

Context {W : Type} (E : Collaborators W).

Lemma observe_trace_cases (this : Stagehand W) (observation : string) :
  (exists locator ok, cached_locator this observation = Some locator /\
     trace (observe E observation this) = [ExpectAttached locator ok]) \/
  (cached_locator this observation = None /\
   exists dom content tail,
     trace (observe E observation this)
     = Snapshot :: OracleLocator observation dom content :: tail /\
     (tail = [] \/ exists locator ok, tail = [ExpectAttached locator ok])).
Proof.
  destruct (cached_locator this observation) as [locator |] eqn:Hc.
  - destruct (toBeAttached E locator (page this)) as [ok w] eqn:Ha.
    rewrite (observe_hit E this observation locator ok w Hc Ha).
    left. exists locator, ok. split; reflexivity.
  - destruct (processElements E (page this)) as [els w1] eqn:Hs.
    destruct (chat_completions_create E observation els.1 w1) as [content w2] eqn:Ho.
    rewrite (observe_miss E this observation els w1 w2 content Hc Hs Ho).
    right. split; [reflexivity |]. exists els.1, content.
    destruct (truthy_string content) as [elementId |].
    + destruct (String.eqb elementId "NONE").
      * exists []. split; [reflexivity | left; reflexivity].
      * cbv zeta. destruct (toBeAttached E _ w2) as [[|] w3];
          (eexists; split; [reflexivity | right; eexists _, _; reflexivity]).
    + exists []. split; [reflexivity | left; reflexivity].
Qed.

Lemma observe_miss_queries_once (this : Stagehand W) (observation : string) :
  cached_locator this observation = None ->
  oracle_calls (trace (observe E observation this)) = 1.
Proof.
  intros Hc.
  destruct (observe_trace_cases this observation)
    as [(l & ok & Hhit & _) | (_ & dom & content & tail & -> & Htail)]; [congruence |].
  destruct Htail as [-> | (l & ok & ->)]; reflexivity.
Qed.

Lemma observe_queries_at_most_once (this : Stagehand W) (observation : string) :
  oracle_calls (trace (observe E observation this)) <= 1.
Proof.
  destruct (observe_trace_cases this observation)
    as [(l & ok & _ & ->) | (_ & dom & content & tail & -> & Htail)].
  - cbn. lia.
  - destruct Htail as [-> | (l & ok & ->)]; cbn; lia.
Qed.

Lemma observe_asks_no_action (this : Stagehand W) (observation : string) :
  action_queries (trace (observe E observation this)) = 0.
Proof.
  destruct (observe_trace_cases this observation)
    as [(l & ok & _ & ->) | (_ & dom & content & tail & -> & Htail)].
  - reflexivity.
  - destruct Htail as [-> | (l & ok & ->)]; reflexivity.
Qed.

Lemma act_hit_queries_nothing (this : Stagehand W) (action : string)
    (cachedAction : CacheEntry) :
  actions this !! getKey this action = Some cachedAction ->
  oracle_calls (trace (act E action this)) = 0 /\
  List.filter is_snapshot (trace (act E action this)) = [].
Proof.
  intros Hhit.
  destruct (waitForDomSettle E (page this)) as [ok w0] eqn:Hw.
  rewrite (act_hit E this action cachedAction ok w0 Hhit Hw).
  unfold oracle_calls, prepend, trace. cbn [fst snd app List.filter is_oracle is_snapshot].
  pose proof (silent_replay_stored E is_oracle (result cachedAction)
                (fun _ _ _ _ => eq_refl) (setPage w0 this)) as Ho.
  pose proof (silent_replay_stored E is_snapshot (result cachedAction)
                (fun _ _ _ _ => eq_refl) (setPage w0 this)) as Hs.
  unfold trace in Ho, Hs. rewrite Ho, Hs. split; reflexivity.
Qed.

Lemma act_queries_at_most_once (this : Stagehand W) (action : string) :
  oracle_calls (trace (act E action this)) <= 1.
Proof.
  destruct (actions this !! getKey this action) as [cachedAction |] eqn:Hc.
  - destruct (act_hit_queries_nothing this action cachedAction Hc) as [-> _]. lia.
  - rewrite (act_miss_queries_once E this action Hc). lia.
Qed.

Lemma act_miss_asks_one_action (this : Stagehand W) (action : string) :
  actions this !! getKey this action = None ->
  action_queries (trace (act E action this)) = 1.
Proof.
  intros Hmiss.
  destruct (waitForDomSettle E (page this)) as [ok w0] eqn:Hw.
  destruct (processElements E w0) as [els w1] eqn:Hs.
  destruct (inference_act E action els.1 w1) as [response w2] eqn:Ho.
  rewrite (act_miss E this action ok w0 w1 w2 els response Hmiss Hw Hs Ho).
  unfold action_queries, prepend, trace. cbn [fst snd app List.filter is_action_oracle].
  pose proof (silent_perform_fresh E is_action_oracle els.2 response
                (fun _ _ _ _ => eq_refl) (fun _ => eq_refl)) as Hsilent.
  unfold silent, trace in Hsilent. rewrite Hsilent. reflexivity.
Qed.

Lemma call_queries_at_most_once (c : Call W) (this : Stagehand W) :
  oracle_calls (call E c this).2 <= 1.
Proof.
  destruct c; cbn [call snd].
  - apply observe_queries_at_most_once.
  - apply act_queries_at_most_once.
  - cbn. lia.
  - cbn. lia.
Qed.

Lemma oracle_calls_app (t1 t2 : list Event) :
  oracle_calls (t1 ++ t2) = oracle_calls t1 + oracle_calls t2.
Proof. unfold oracle_calls. rewrite List.filter_app, length_app. reflexivity. Qed.

Lemma action_queries_app (t1 t2 : list Event) :
  action_queries (t1 ++ t2) = action_queries t1 + action_queries t2.
Proof. unfold action_queries. rewrite List.filter_app, length_app. reflexivity. Qed.

Lemma call_keeps_actions (c : Call W) (this : Stagehand W) :
  actions (call E c this).1 = actions this.
Proof.
  destruct (call_effect E c this)
    as [[w ->] | [[key ->] | (observation & path & w & _ & ->)]]; reflexivity.
Qed.

Lemma unserved_ext (a b : Stagehand W) (c : Call W) :
  actions a = actions b -> unserved a c -> unserved b c.
Proof.
  intros Heq. destruct c; cbn; try exact (fun H => H).
  unfold getKey. rewrite Heq. exact (fun H => H).
Qed.

Lemma answered_ext (a b : Stagehand W) (c : Call W) :
  observations a = observations b -> answered_from_mirror a c -> answered_from_mirror b c.
Proof.
  intros Heq. destruct c; cbn; try exact (fun H => H).
  unfold cached_locator, getKey. rewrite Heq. exact (fun H => H).
Qed.

End Counting.

(** X6. A sequence of calls makes at most as many oracle queries as it has
    calls: no call asks twice, whatever it was answered. *)
Theorem session_queries_at_most_once_per_call {W : Type} (E : Collaborators W)
    (cs : list (Call W)) (this : Stagehand W) :
  oracle_calls (session E cs this).2 <= length cs.
Proof.
  revert this. induction cs as [| c rest IH]; intros this; cbn [session snd length].
  - cbn. lia.
  - rewrite oracle_calls_app.
    pose proof (call_queries_at_most_once E c this).
    specialize (IH (call E c this).1). lia.
Qed.

(** X3. In a sequence of calls, every [act] whose instruction has no stored
    action when the sequence starts queries the action oracle exactly once,
    however often the instruction is repeated and whatever [observe] has
    resolved meanwhile: the action queries are as many as the [act] calls. *)
Theorem session_asks_for_every_unstored_action {W : Type} (E : Collaborators W)
    (cs : list (Call W)) (this : Stagehand W) :
  Forall (unserved this) cs ->
  action_queries (session E cs this).2 = length (List.filter is_act_call cs).
Proof.
  revert this. induction cs as [| c rest IH]; intros this Hall;
    cbn [session snd List.filter].
  - reflexivity.
  - apply Forall_cons in Hall as [Hc Hrest].
    rewrite action_queries_app.
    rewrite (IH (call E c this).1).
    + destruct c as [observation | action | key | w]; cbn [call snd is_act_call length].
      * rewrite observe_asks_no_action. reflexivity.
      * rewrite (act_miss_asks_one_action E this action Hc). reflexivity.
      * reflexivity.
      * reflexivity.
    + eapply Forall_impl; [exact Hrest |].
      intros c'. apply unserved_ext. symmetry. apply call_keeps_actions.
Qed.

Lemma session_asks_for_every_unstored_action_witness :
  let E := Demo.collaborators [] in
  let this := constructor true false ∅ ∅ Demo.submit_page in
  let cs : list (Call Demo.World) :=
    [CallAct "click on Submit"; CallObserve "click on Submit";
     CallAct "click on Submit"; CallAct "click on Submit"] in
  action_queries (session E cs this).2 = 3.
Proof.
  intros E this cs.
  apply (session_asks_for_every_unstored_action E cs this).
  repeat constructor.
Defined.

(** X7. A sequence of [observe] calls on instructions that the mirror
    already answers, mixed with [setId] and [setPage], never takes a
    snapshot and never queries an oracle, whether the locators are still
    attached or not, and leaves the mirror of the observations as it was. *)
Theorem session_answered_from_mirror_is_silent {W : Type} (E : Collaborators W)
    (cs : list (Call W)) (this : Stagehand W) :
  Forall (answered_from_mirror this) cs ->
  oracle_calls (session E cs this).2 = 0 /\
  List.filter is_snapshot (session E cs this).2 = [] /\
  observations (session E cs this).1 = observations this.
Proof.
  revert this. induction cs as [| c rest IH]; intros this Hall; cbn [session fst snd].
  - repeat split.
  - apply Forall_cons in Hall as [Hc Hrest].
    assert (Hstep : oracle_calls (call E c this).2 = 0 /\
                    List.filter is_snapshot (call E c this).2 = [] /\
                    observations (call E c this).1 = observations this).
    { destruct c as [observation | action | key | w]; cbn [call fst snd];
        try (repeat split; fail); [| destruct Hc].
      cbn in Hc.
      destruct (cached_locator this observation) as [locator |] eqn:Hl; [| congruence].
      destruct (toBeAttached E locator (page this)) as [ok w] eqn:Ha.
      rewrite (observe_hit E this observation locator ok w Hl Ha).
      repeat split. }
    destruct Hstep as (Ho & Hs & Hm).
    destruct (IH (call E c this).1) as (Ho' & Hs' & Hm').
    { eapply Forall_impl; [exact Hrest |].
      intros c'. apply answered_ext. symmetry. exact Hm. }
    rewrite oracle_calls_app, List.filter_app, Ho, Ho', Hs, Hs', Hm', Hm.
    repeat split.
Qed.

Lemma session_answered_from_mirror_is_silent_witness :
  let E := Demo.collaborators [] in
  let this := after (observe E "the submit button"
                       (constructor false false ∅ ∅ Demo.submit_page)) in
  let cs := [CallObserve "the submit button"; CallSetPage Demo.empty_page;
             CallObserve "the submit button"; CallSetId "run-2";
             CallObserve "the submit button"] in
  oracle_calls (session E cs this).2 = 0 /\
  List.filter is_snapshot (session E cs this).2 = [] /\
  observations (session E cs this).1 = observations this.
Proof.
  intros E this cs.
  apply (session_answered_from_mirror_is_silent E cs this).
  repeat constructor; vm_compute; discriminate.
Defined.

(** ** More on [observe] *)

Section ObserveEdges.

Context {W : Type} (E : Collaborators W).

Lemma observe_null_only_on_miss (this : Stagehand W) (observation : string) :
  outcome (observe E observation this) = inr None ->
  cached_locator this observation = None /\
  exists w, after (observe E observation this) = setPage w this.
Proof.
  destruct (cached_locator this observation) as [locator |] eqn:Hc.
  - destruct (toBeAttached E locator (page this)) as [ok w] eqn:Ha.
    rewrite (observe_hit E this observation locator ok w Hc Ha).
    destruct ok; discriminate.
  - intros Hnull. split; [reflexivity |].
    destruct (observe_effect E this observation) as [Hpage | (_ & Hkey & _)];
      [exact Hpage | congruence].
Qed.

Lemma observe_key_only_when_remembered (this : Stagehand W) (observation k : string) :
  cached_locator this observation = None ->
  outcome (observe E observation this) = inr (Some k) ->
  exists path w,
    after (observe E observation this)
    = remembered this observation ("xpath=" +:+ path) w.
Proof.
  intros Hc.
  destruct (processElements E (page this)) as [els w1] eqn:Hs.
  destruct (chat_completions_create E observation els.1 w1) as [content w2] eqn:Ho.
  rewrite (observe_miss E this observation els w1 w2 content Hc Hs Ho).
  destruct (truthy_string content) as [elementId |]; [| discriminate].
  destruct (String.eqb elementId "NONE"); [discriminate |].
  cbv zeta. destruct (toBeAttached E _ w2) as [[|] w3]; [| discriminate].
  intros _. eexists _, w3. reflexivity.
Qed.

End ObserveEdges.

(** X8. A not-found answer is not remembered: after an [observe] that
    returned null the mirror of the observations is unchanged and still has
    nothing usable for the instruction, so the same instruction, on whatever
    the page has become, queries the oracle again. *)
Theorem observe_null_is_not_remembered {W : Type} (E : Collaborators W)
    (this : Stagehand W) (observation : string) :
  outcome (observe E observation this) = inr None ->
  observations (after (observe E observation this)) = observations this /\
  cached_locator (after (observe E observation this)) observation = None /\
  forall w : W,
    oracle_calls
      (trace (observe E observation (setPage w (after (observe E observation this)))))
    = 1.
Proof.
  intros Hnull.
  destruct (observe_null_only_on_miss E this observation Hnull) as (Hc & w0 & ->).
  split; [reflexivity |]. split; [exact Hc |].
  intros w. apply observe_miss_queries_once. exact Hc.
Qed.

Lemma observe_null_is_not_remembered_witness :
  let E := Demo.collaborators [] in
  let this := constructor false false ∅ ∅
                (Demo.answering (Some "NONE") JNull Demo.submit_page) in
  observations (after (observe E "the price label" this)) = observations this /\
  cached_locator (after (observe E "the price label" this)) "the price label" = None /\
  forall w : Demo.World,
    oracle_calls
      (trace (observe E "the price label"
                (setPage w (after (observe E "the price label" this)))))
    = 1.
Proof.
  intros E this.
  apply (observe_null_is_not_remembered E this "the price label").
  vm_compute. reflexivity.
Defined.

(** X9. A stored observation whose locator is the empty text counts as no
    entry: [observe] takes the miss path and queries the oracle once; when it
    then returns a key, the empty entry has been replaced by an xpath locator
    tagged with the current session identifier. *)
Theorem observe_empty_stored_locator_is_a_miss {W : Type} (E : Collaborators W)
    (this : Stagehand W) (observation : string) (entry : CacheEntry) :
  observations this !! getKey this observation = Some entry ->
  result entry = "" ->
  oracle_calls (trace (observe E observation this)) = 1 /\
  forall k, outcome (observe E observation this) = inr (Some k) ->
    exists path,
      observations (after (observe E observation this)) !! getKey this observation
      = Some {| result := "xpath=" +:+ path; id := this_id this |}.
Proof.
  intros Hentry Hempty.
  assert (Hc : cached_locator this observation = None).
  { unfold cached_locator. rewrite Hentry. cbn. rewrite Hempty. reflexivity. }
  split; [apply observe_miss_queries_once; exact Hc |].
  intros k Hk.
  destruct (observe_key_only_when_remembered E this observation k Hc Hk)
    as (path & w & ->).
  exists path. unfold remembered, after. cbn [fst snd observations].
  apply lookup_insert_eq.
Qed.

Lemma observe_empty_stored_locator_is_a_miss_witness :
  let E := Demo.collaborators [] in
  let key := SHA256.hexdigest "the submit button" in
  let this := constructor false false {[ key := {| result := ""; id := None |} ]} ∅
                Demo.submit_page in
  oracle_calls (trace (observe E "the submit button" this)) = 1 /\
  forall k, outcome (observe E "the submit button" this) = inr (Some k) ->
    exists path,
      observations (after (observe E "the submit button" this)) !! key
      = Some {| result := "xpath=" +:+ path; id := this_id this |}.
Proof.
  intros E key this.
  apply (observe_empty_stored_locator_is_a_miss E this "the submit button"
           {| result := ""; id := None |}).
  - vm_compute. reflexivity.
  - reflexivity.
Defined.

(** X10. [observe] does not check that the oracle's element id is in the
    selector map: for a numeric id that the snapshot does not know, the
    locator is xpath=undefined; the attachment check is made on it, and if that check
    passes the locator is stored under the instruction's key. *)
Theorem observe_unknown_element_checks_xpath_undefined {W : Type}
    (E : Collaborators W) (this : Stagehand W) (observation elementId : string)
    (els : string * gmap string string) (w1 w2 : W) :
  cached_locator this observation = None ->
  processElements E (page this) = (els, w1) ->
  chat_completions_create E observation els.1 w1 = (Some elementId, w2) ->
  elementId <> "" ->
  forallb is_digit (list_ascii_of_string elementId) = true ->
  els.2 !! elementId = None ->
  trace (observe E observation this)
  = [Snapshot; OracleLocator observation els.1 (Some elementId);
     ExpectAttached "xpath=undefined" (toBeAttached E "xpath=undefined" w2).1] /\
  ((toBeAttached E "xpath=undefined" w2).1 = true ->
   outcome (observe E observation this) = inr (Some (getKey this observation)) /\
   cached_locator (after (observe E observation this)) observation
   = Some "xpath=undefined").
Proof.
  intros Hc Hs Ho Hne Hdigits Hunknown.
  assert (Hnone : elementId <> "NONE") by (intros ->; discriminate Hdigits).
  rewrite (observe_miss E this observation els w1 w2 (Some elementId) Hc Hs Ho).
  apply String.eqb_neq in Hne. apply String.eqb_neq in Hnone.
  cbn [truthy_string]. rewrite Hne, Hnone, Hunknown. cbn [default from_option Datatypes.id].
  change ("xpath=" +:+ "undefined") with "xpath=undefined". cbv zeta.
  destruct (toBeAttached E "xpath=undefined" w2) as [[|] w3]; cbn [fst snd].
  - split; [reflexivity |]. intros _. split; [reflexivity |].
    apply (cached_locator_remembered this observation "undefined" w3).
  - split; [reflexivity |]. discriminate.
Qed.

Lemma observe_unknown_element_checks_xpath_undefined_witness :
  let E := Demo.collaborators [] in
  let w := Demo.answering (Some "12") JNull Demo.submit_page in
  let this := constructor false false ∅ ∅ w in
  let els : string * gmap string string :=
    (Demo.outputString w, list_to_map (Demo.selectorMap w)) in
  trace (observe E "the price label" this)
  = [Snapshot; OracleLocator "the price label" els.1 (Some "12");
     ExpectAttached "xpath=undefined"
       (toBeAttached E "xpath=undefined" (Demo.asked w)).1] /\
  ((toBeAttached E "xpath=undefined" (Demo.asked w)).1 = true ->
   outcome (observe E "the price label" this)
   = inr (Some (getKey this "the price label")) /\
   cached_locator (after (observe E "the price label" this)) "the price label"
   = Some "xpath=undefined").
Proof.
  intros E w this els.
  apply (observe_unknown_element_checks_xpath_undefined E this "the price label" "12"
           els w (Demo.asked w)).
  - reflexivity.
  - reflexivity.
  - reflexivity.
  - discriminate.
  - reflexivity.
  - reflexivity.
Defined.

(** X11. [observe] never waits for quiescence and never interacts with the
    page, on any path. *)
Theorem observe_never_settles_nor_interacts {W : Type} (E : Collaborators W)
    (this : Stagehand W) (observation : string) :
  List.filter is_settle (trace (observe E observation this)) = [] /\
  interactions (trace (observe E observation this)) = [].
Proof.
  destruct (observe_trace_cases E this observation)
    as [(l & ok & _ & ->) | (_ & dom & content & tail & -> & Htail)].
  - split; reflexivity.
  - destruct Htail as [-> | (l & ok & ->)]; split; reflexivity.
Qed.

(** X12. The two mirrors are separate although they share the key
    derivation: after [observe] has resolved and stored an instruction, [act]
    with the same text still finds no action and queries the oracle. *)
Theorem observation_never_serves_an_action {W : Type} (E : Collaborators W)
    (this : Stagehand W) (instruction k : string) :
  outcome (observe E instruction this) = inr (Some k) ->
  actions this !! getKey this instruction = None ->
  cached_locator (after (observe E instruction this)) instruction <> None /\
  oracle_calls (trace (act E instruction (after (observe E instruction this)))) = 1.
Proof.
  intros Hk Hmiss. split.
  - destruct (observe_success_cached E this instruction k Hk) as [locator ->].
    discriminate.
  - apply act_miss_queries_once.
    change (actions (call E (CallObserve instruction) this).1
              !! getKey this instruction = None).
    rewrite call_keeps_actions. exact Hmiss.
Qed.

Lemma observation_never_serves_an_action_witness :
  let E := Demo.collaborators [] in
  let this := constructor false false ∅ ∅ Demo.submit_page in
  cached_locator (after (observe E "click on Submit" this)) "click on Submit" <> None /\
  oracle_calls
    (trace (act E "click on Submit" (after (observe E "click on Submit" this)))) = 1.
Proof.
  intros E this.
  apply (observation_never_serves_an_action E this "click on Submit"
           (SHA256.hexdigest "click on Submit")).
  - vm_compute. reflexivity.
  - reflexivity.
Defined.

(** ** Lists of commands, in order *)

Section Loops.

Context {W A : Type} (g : A -> JSVal) (body : JSVal -> M W unit)
  (shows : A -> Event -> Prop) (good : A -> Prop).

Hypothesis body_spec :
  forall (x : A) (this : Stagehand W), good x ->
    exists thrown w l m a,
      shows x (Interaction l m a thrown) /\
      body (g x) this
      = (match thrown with
         | Some e => inl e
         | None => inr tt
         end, setPage w this, [Interaction l m a thrown]).

Lemma for_of_in_order (xs : list A) (this : Stagehand W) :
  Forall good xs ->
  in_order shows xs (outcome (for_of (map g xs) body this))
    (trace (for_of (map g xs) body this)).
Proof.
  revert this. induction xs as [| x rest IH]; intros this Hgood.
  - cbn. unfold in_order. cbn. repeat split; try constructor. discriminate.
  - apply Forall_cons in Hgood as [Hx Hrest].
    cbn [map for_of]. rewrite bind_run.
    destruct (body_spec x this Hx) as (thrown & w & l & m & a & Hshow & ->).
    destruct thrown as [e |].
    + unfold in_order, outcome, trace. cbn [fst snd length take].
      split; [repeat constructor; exact Hshow |].
      split; [discriminate |].
      intros err [= <-]. exists [], (Interaction l m a (Some e)).
      repeat split. constructor.
    + specialize (IH (setPage w this) Hrest).
      destruct (for_of (map g rest) body (setPage w this)) as [[out this1] t].
      unfold in_order, prepend, outcome, after, trace in *. cbn [fst snd app length take] in *.
      destruct IH as (Hprefix & Hdone & Hfail).
      split; [constructor; [exact Hshow | exact Hprefix] |].
      split.
      * intros Hout. destruct (Hdone Hout) as [Hlen Hquiet].
        split; [congruence | constructor; [reflexivity | exact Hquiet]].
      * intros err Hout. destruct (Hfail err Hout) as (t0 & e & -> & He & Hquiet).
        exists (Interaction l m a None :: t0), e.
        repeat split; [exact He | constructor; [reflexivity | exact Hquiet]].
Qed.

End Loops.

Section CommandLists.

Context {W : Type} (E : Collaborators W).

Lemma normalize_array (items : list JSVal) (this : Stagehand W) :
  items <> [] -> normalize (JArr items) this = (inr items, this, []).
Proof. destruct items as [| v rest]; [congruence |]. intros _. reflexivity. Qed.

Lemma perform_step (this : Stagehand W) (selectorMap : gmap string string) (s : Step)
    (thrown : option Error) (w : W) :
  js_toString (JArr (step_args s)) <> None ->
  locator_call E (JStr (step_locator selectorMap s)) (step_method s) (step_args s)
    (page this) = (thrown, w) ->
  perform E selectorMap (step_value s) this
  = (match thrown with
     | Some e => inl e
     | None => inr tt
     end,
     setPage w this,
     [Interaction (JStr (step_locator selectorMap s)) (step_method s) (step_args s)
        thrown]).
Proof.
  intros Hargs Hcall.
  destruct (js_toString (JArr (step_args s))) as [printed |] eqn:Hprint; [| congruence].
  unfold perform, step_value.
  cbn [js_get own String.eqb Ascii.eqb Bool.eqb default from_option Datatypes.id lift].
  rewrite !bind_ret.
  change (js_toString (JNum (step_element s))) with (Some (pretty (step_element s))).
  cbn [or_throw]. rewrite !bind_ret.
  unfold template. cbn [for_of].
  rewrite Hprint.
  unfold invoke. cbn [js_toString or_throw js_iter lift].
  steps.
  fold (step_locator selectorMap s).
  rewrite (bind_extern _ _ _ _ _ Hcall), bind_emit.
  destruct thrown; reflexivity.
Qed.

Lemma replay_in_order (cs : list Command) (this : Stagehand W) :
  Forall (fun c => js_toString (JArr (cmd_args c)) <> None) cs ->
  in_order replays cs
    (outcome (for_of (map command_value cs) (replay E) this))
    (trace (for_of (map command_value cs) (replay E) this)).
Proof.
  apply for_of_in_order. clear this. intros c this Hc.
  destruct (locator_call E (JStr (cmd_locator c)) (cmd_method c) (cmd_args c) (page this))
    as [thrown w] eqn:Hcall.
  exists thrown, w, (JStr (cmd_locator c)), (cmd_method c), (cmd_args c).
  split; [exists thrown; reflexivity |].
  apply replay_command; assumption.
Qed.

Lemma perform_in_order (selectorMap : gmap string string) (steps : list Step)
    (this : Stagehand W) :
  Forall (fun s => js_toString (JArr (step_args s)) <> None) steps ->
  in_order (performs selectorMap) steps
    (outcome (for_of (map step_value steps) (perform E selectorMap) this))
    (trace (for_of (map step_value steps) (perform E selectorMap) this)).
Proof.
  apply for_of_in_order. clear this. intros s this Hs.
  destruct (locator_call E (JStr (step_locator selectorMap s)) (step_method s)
              (step_args s) (page this)) as [thrown w] eqn:Hcall.
  exists thrown, w, (JStr (step_locator selectorMap s)), (step_method s), (step_args s).
  split; [exists thrown; reflexivity |].
  apply perform_step; assumption.
Qed.

End CommandLists.

(** X13. On the hit path, a stored list of commands is replayed in the
    stored order, one interaction for each command, and the replay stops at
    the first interaction that throws: the commands after it are not run and
    [act] ends in that error; when none throws every command has been run. *)
Theorem act_replays_in_order_until_a_failure {W : Type} (E : Collaborators W)
    (this : Stagehand W) (action : string) (entry : CacheEntry) (cs : list Command) :
  actions this !! getKey this action = Some entry ->
  JSON_parse E (result entry) = Some (JArr (map command_value cs)) ->
  cs <> [] ->
  Forall (fun c => js_toString (JArr (cmd_args c)) <> None) cs ->
  exists ok t,
    trace (act E action this) = Settle ok :: t /\
    in_order replays cs (outcome (act E action this)) t.
Proof.
  intros Hhit Hparse Hne Hgood.
  destruct (waitForDomSettle E (page this)) as [ok w0] eqn:Hw.
  rewrite (act_hit E this action entry ok w0 Hhit Hw).
  unfold replay_stored. rewrite Hparse. cbn [or_throw]. rewrite bind_ret, bind_run.
  rewrite normalize_array by (destruct cs; [congruence | discriminate]).
  rewrite prepend_nil.
  pose proof (replay_in_order E cs (setPage w0 this) Hgood) as Horder.
  destruct (for_of (map command_value cs) (replay E) (setPage w0 this)) as [[out this1] t].
  exists ok, t. split; [reflexivity | exact Horder].
Qed.

Lemma act_replays_in_order_until_a_failure_witness :
  let fly := {| cmd_locator := "xpath=//a"; cmd_method := "fly"; cmd_args := [] |} in
  let cs := [Demo.click_submit; fly; Demo.click_submit] in
  let E := Demo.collaborators [JArr (map command_value cs)] in
  let key := SHA256.hexdigest "click on Submit" in
  let this := constructor false false ∅
                {[ key := Demo.stored (JArr (map command_value cs)) ]}
                Demo.submit_page in
  exists ok t,
    trace (act E "click on Submit" this) = Settle ok :: t /\
    in_order replays cs (outcome (act E "click on Submit" this)) t.
Proof.
  intros fly cs E key this.
  apply (act_replays_in_order_until_a_failure E this "click on Submit"
           (Demo.stored (JArr (map command_value cs))) cs).
  - vm_compute. reflexivity.
  - vm_compute. reflexivity.
  - discriminate.
  - repeat constructor; discriminate.
Defined.

(** X14. On the miss path, the commands that the oracle answers are run in
    the answered order, each on the locator that the snapshot's selector map
    gives for its element (xpath=undefined for an element the map does not
    have), and the run stops at the first interaction that throws; the
    closing wait for quiescence is made only when no interaction threw. The
    element ids are safe integers, which the runtime prints digit by digit
    when it reads the map. *)
Theorem act_performs_in_order_until_a_failure {W : Type} (E : Collaborators W)
    (this : Stagehand W) (action : string) (ok : bool) (w0 w1 w2 : W)
    (els : string * gmap string string) (steps : list Step) :
  actions this !! getKey this action = None ->
  waitForDomSettle E (page this) = (ok, w0) ->
  processElements E w0 = (els, w1) ->
  inference_act E action els.1 w1 = (JArr (map step_value steps), w2) ->
  steps <> [] ->
  Forall (fun s => safe_integer (step_element s)) steps ->
  Forall (fun s => js_toString (JArr (step_args s)) <> None) steps ->
  exists t tail,
    trace (act E action this)
    = [Settle ok; Snapshot; OracleActions action els.1 (JArr (map step_value steps))]
      ++ t ++ tail /\
    in_order (performs els.2) steps (outcome (act E action this)) t /\
    (outcome (act E action this) = inr tt -> exists ok', tail = [Settle ok']) /\
    (forall err, outcome (act E action this) = inl err -> tail = []).
Proof.
  intros Hmiss Hw Hs Ho Hne _ Hgood.
  rewrite (act_miss E this action ok w0 w1 w2 els _ Hmiss Hw Hs Ho).
  unfold perform_fresh. rewrite bind_run.
  rewrite normalize_array by (destruct steps; [congruence | discriminate]).
  rewrite prepend_nil, bind_run.
  pose proof (perform_in_order E els.2 steps (setPage w2 this) Hgood) as Horder.
  destruct (for_of (map step_value steps) (perform E els.2) (setPage w2 this))
    as [[[err | []] this1] t].
  - exists t, []. unfold prepend, outcome, trace in *. cbn [fst snd] in *.
    rewrite app_nil_r. split; [reflexivity |]. split; [exact Horder |].
    split; [discriminate | reflexivity].
  - rewrite run_waitForSettledDom.
    exists t, [Settle (waitForDomSettle E (page this1)).1].
    unfold prepend, outcome, trace in *. cbn [fst snd] in *.
    split; [reflexivity |]. split; [exact Horder |].
    split; [intros _; eexists; reflexivity | discriminate].
Qed.

Lemma act_performs_in_order_until_a_failure_witness :
  let steps := [{| step_element := 7; step_method := "click"; step_args := [] |};
                {| step_element := 9; step_method := "fill"; step_args := [JStr "a"] |}] in
  let E := Demo.collaborators [] in
  let w := Demo.answering None (JArr (map step_value steps)) Demo.submit_page in
  let this := constructor false false ∅ ∅ w in
  let els : string * gmap string string :=
    (Demo.outputString w, list_to_map (Demo.selectorMap w)) in
  exists t tail,
    trace (act E "click then fill" this)
    = [Settle true; Snapshot;
       OracleActions "click then fill" els.1 (JArr (map step_value steps))]
      ++ t ++ tail /\
    in_order (performs els.2) steps (outcome (act E "click then fill" this)) t /\
    (outcome (act E "click then fill" this) = inr tt -> exists ok', tail = [Settle ok']) /\
    (forall err, outcome (act E "click then fill" this) = inl err -> tail = []).
Proof.
  intros steps E w this els.
  apply (act_performs_in_order_until_a_failure E this "click then fill" true
           w w (Demo.asked w) els steps).
  - reflexivity.
  - reflexivity.
  - reflexivity.
  - reflexivity.
  - discriminate.
  - repeat constructor; unfold safe_integer; cbn; lia.
  - repeat constructor; discriminate.
Defined.

(** X15. A single command that carries a truthy [length] property is taken
    for a list by the normalisation and is not iterable: on the miss path
    [act] ends in a TypeError right after the oracle query, with no
    interaction and no closing wait. *)
Theorem act_command_with_length_is_not_run {W : Type} (E : Collaborators W)
    (this : Stagehand W) (action : string) (ok : bool) (w0 w1 w2 : W)
    (els : string * gmap string string) (props : list (string * JSVal)) (len : JSVal) :
  actions this !! getKey this action = None ->
  waitForDomSettle E (page this) = (ok, w0) ->
  processElements E w0 = (els, w1) ->
  inference_act E action els.1 w1 = (JObj props, w2) ->
  own props "length" = Some len ->
  truthy len = true ->
  act E action this
  = (inl TypeError, setPage w2 this,
     [Settle ok; Snapshot; OracleActions action els.1 (JObj props)]).
Proof.
  intros Hmiss Hw Hs Ho Hlen Htruthy.
  rewrite (act_miss E this action ok w0 w1 w2 els _ Hmiss Hw Hs Ho).
  unfold perform_fresh, normalize. cbn [js_get lift]. rewrite Hlen.
  cbn [default from_option Datatypes.id]. rewrite bind_bind, bind_ret, Htruthy.
  reflexivity.
Qed.

Lemma act_command_with_length_is_not_run_witness :
  let props := [("element", JNum 7); ("method", JStr "fill");
                ("args", JArr [JStr "a"]); ("length", JNum 1)] in
  let E := Demo.collaborators [] in
  let w := Demo.answering None (JObj props) Demo.submit_page in
  let this := constructor false false ∅ ∅ w in
  act E "fill the field" this
  = (inl TypeError, setPage (Demo.asked w) this,
     [Settle true; Snapshot;
      OracleActions "fill the field" (Demo.outputString w) (JObj props)]).
Proof.
  intros props E w this.
  apply (act_command_with_length_is_not_run E this "fill the field" true
           w w (Demo.asked w)
           (Demo.outputString w, list_to_map (Demo.selectorMap w)) props (JNum 1)).
  - reflexivity.
  - reflexivity.
  - reflexivity.
  - reflexivity.
  - reflexivity.
  - reflexivity.
Defined.

(** X16. What [cacheAction] stores is what [act] replays: after
    [cacheAction] of an instruction and a text, [act] with that instruction
    waits once, takes no snapshot, queries no oracle and runs the replay of
    that very text. *)
Theorem act_after_cacheAction_replays_the_text {W : Type} (E : Collaborators W)
    (this : Stagehand W) (action text : string) :
  let stored := after (cacheAction action text this) in
  trace (act E action stored)
  = Settle (waitForDomSettle E (page this)).1
    :: trace (replay_stored E text
                (setPage (waitForDomSettle E (page this)).2 stored)) /\
  oracle_calls (trace (act E action stored)) = 0 /\
  List.filter is_snapshot (trace (act E action stored)) = [].
Proof.
  intros stored.
  assert (Hhit : actions stored !! getKey stored action
                 = Some {| result := text; id := this_id this |}).
  { unfold stored, cacheAction, after, getKey. cbn [fst snd actions].
    apply lookup_insert_eq. }
  split; [| exact (act_hit_queries_nothing E stored action _ Hhit)].
  destruct (waitForDomSettle E (page this)) as [ok w0] eqn:Hw.
  rewrite (act_hit E stored action _ ok w0 Hhit Hw). reflexivity.
Qed.

(** X17. A stored action whose text [JSON.parse] rejects makes [act] end in
    a SyntaxError after its first wait, with no interaction and without
    turning to the oracle; the entry stays, so every later [act] with the
    instruction ends the same way. *)
Theorem act_malformed_stored_text_fails_for_good {W : Type} (E : Collaborators W)
    (this : Stagehand W) (action : string) (entry : CacheEntry) :
  actions this !! getKey this action = Some entry ->
  JSON_parse E (result entry) = None ->
  forall w : W,
    act E action (setPage w this)
    = (inl SyntaxError, setPage (waitForDomSettle E w).2 this,
       [Settle (waitForDomSettle E w).1]) /\
    actions (after (act E action (setPage w this))) !! getKey this action = Some entry.
Proof.
  intros Hhit Hparse w.
  destruct (waitForDomSettle E w) as [ok w0] eqn:Hw.
  rewrite (act_hit E (setPage w this) action entry ok w0 Hhit Hw).
  unfold replay_stored. rewrite Hparse. cbn [or_throw]. rewrite bind_throw.
  split; [reflexivity | exact Hhit].
Qed.

Lemma act_malformed_stored_text_fails_for_good_witness :
  let E := Demo.collaborators [] in
  let key := SHA256.hexdigest "click on Submit" in
  let entry := {| result := "{locator:"; id := None |} in
  let this := constructor false false ∅ {[ key := entry ]} Demo.submit_page in
  let w := Demo.empty_page in
  act E "click on Submit" (setPage w this)
  = (inl SyntaxError, setPage (waitForDomSettle E w).2 this,
     [Settle (waitForDomSettle E w).1]) /\
  actions (after (act E "click on Submit" (setPage w this)))
    !! getKey this "click on Submit" = Some entry.
Proof.
  intros E key entry this w.
  refine (act_malformed_stored_text_fails_for_good E this "click on Submit" entry
            _ _ w).
  - vm_compute. reflexivity.
  - reflexivity.
Defined.

(** ** [extract] and [downloadPDF] *)

Section ServiceProperties.

Context {W Schema Download : Type} (E : Collaborators W)
  (V : Services W Schema Download).

Lemma run_snapshot (this : Stagehand W) :
  snapshot E this
  = (inr (processElements E (page this)).1,
     setPage (processElements E (page this)).2 this, [Snapshot]).
Proof.
  unfold snapshot. destruct (processElements E (page this)) as [els w] eqn:Hs.
  rewrite (bind_extern _ _ _ _ _ Hs), bind_emit. reflexivity.
Qed.

Lemma run_extract (instruction : string) (schema : Schema) (this : Stagehand W) :
  let w0 := (waitForDomSettle E (page this)).2 in
  let els := (processElements E w0).1 in
  let answer := instructor_create V schema instruction els.1 (processElements E w0).2 in
  extract E V instruction schema this
  = (match answer.1 with
     | Some selectorResponse => inr selectorResponse
     | None => inl (Rejected "extract")
     end,
     setPage answer.2 this,
     [Core (Settle (waitForDomSettle E (page this)).1); Core Snapshot;
      OracleExtraction instruction els.1 answer.1]).
Proof.
  intros w0 els answer. unfold extract.
  rewrite run_waitForSettledDom. unfold outcome, after, trace. cbn [fst snd].
  rewrite run_snapshot. cbn [fst snd page setPage map app].
  fold w0. fold els. fold answer.
  destruct (answer.1); reflexivity.
Qed.

Lemma core_events_map (t : list Event) : core_events (map Core t) = t.
Proof.
  unfold core_events. induction t as [| e t IH]; [reflexivity |].
  cbn [map flat_map app]. rewrite IH. reflexivity.
Qed.

Lemma core_events_app (t1 t2 : list SessionEvent) :
  core_events (t1 ++ t2) = core_events t1 ++ core_events t2.
Proof. apply flat_map_app. Qed.

End ServiceProperties.

(** X18. [extract] neither reads nor writes the caches: on two objects with
    the same page, whatever their mirrors hold, it ends alike, and in every
    call it waits for quiescence, takes one snapshot and queries the oracle
    exactly once, in that order, changing nothing of the object but its
    page. *)
Theorem extract_ignores_the_caches {W Schema Download : Type} (E : Collaborators W)
    (V : Services W Schema Download) (this1 this2 : Stagehand W)
    (instruction : string) (schema : Schema) :
  page this1 = page this2 ->
  failure_outcome (extract E V instruction schema this1)
  = failure_outcome (extract E V instruction schema this2) /\
  events_of (extract E V instruction schema this1)
  = events_of (extract E V instruction schema this2) /\
  page (object_after (extract E V instruction schema this1))
  = page (object_after (extract E V instruction schema this2)) /\
  frame_of (object_after (extract E V instruction schema this1)) = frame_of this1 /\
  exists ok dom response,
    events_of (extract E V instruction schema this1)
    = [Core (Settle ok); Core Snapshot; OracleExtraction instruction dom response].
Proof.
  intros Hpage.
  rewrite !run_extract. cbv zeta. rewrite Hpage.
  unfold failure_outcome, events_of, object_after. cbn [fst snd].
  repeat split. eexists _, _, _. reflexivity.
Qed.

Lemma extract_ignores_the_caches_witness :
  let E := Demo.collaborators [] in
  let V : Services Demo.World unit unit :=
    {| instructor_create := fun _ _ _ w => (Some (JObj [("price", JNum 12)]), Demo.asked w);
       waitForEvent_download := fun w => w;
       download_event := fun w => (Some tt, w);
       download_saveAs := fun _ _ w => (true, w);
       download_delete := fun _ w => (true, w) |} in
  let this1 := constructor false false ∅ ∅ Demo.submit_page in
  let this2 := setPage Demo.submit_page (after (observe E "the price" this1)) in
  failure_outcome (extract E V "the price" tt this1)
  = failure_outcome (extract E V "the price" tt this2) /\
  events_of (extract E V "the price" tt this1)
  = events_of (extract E V "the price" tt this2) /\
  page (object_after (extract E V "the price" tt this1))
  = page (object_after (extract E V "the price" tt this2)) /\
  frame_of (object_after (extract E V "the price" tt this1)) = frame_of this1 /\
  exists ok dom response,
    events_of (extract E V "the price" tt this1)
    = [Core (Settle ok); Core Snapshot; OracleExtraction "the price" dom response].
Proof.
  intros E V this1 this2.
  apply (extract_ignores_the_caches E V this1 this2 "the price" tt).
  reflexivity.
Defined.

(** X19. [downloadPDF] expects the download before it clicks, clicks
    through [act] with the instruction click on followed by the url, and
    only then awaits the download, saves it under downloads/ with the title
    and the pdf extension, and deletes it, stopping at the first step that
    fails: nothing is awaited or saved when the click failed, and the call
    returns exactly when the delete succeeded. After a click that returned,
    the download is always awaited, and what follows is what the arrival,
    the save and the delete answered. It changes nothing of the object but
    its page. *)
Theorem downloadPDF_saves_after_a_successful_click {W Schema Download : Type}
    (E : Collaborators W) (V : Services W Schema Download)
    (url title : string) (this : Stagehand W) :
  let clicked :=
    act E ("click on " +:+ url) (setPage (waitForEvent_download V (page this)) this) in
  let r := downloadPDF E V url title this in
  exists tail,
    events_of r = DownloadExpected :: map Core (trace clicked) ++ tail /\
    In tail (download_tails title) /\
    (forall e, outcome clicked = inl e -> tail = [] /\ failure_outcome r = inl (Raised e)) /\
    (failure_outcome r = inr tt <->
     tail = [DownloadArrived true; SavedAs (download_path title) true; Deleted true]) /\
    frame_of (object_after r) = frame_of this /\
    (forall u, outcome clicked = inr u ->
       let arrived := download_event V (page (after clicked)) in
       match arrived.1 with
       | None => tail = [DownloadArrived false]
       | Some download =>
           let saved := download_saveAs V download (download_path title) arrived.2 in
           if saved.1
           then tail = [DownloadArrived true; SavedAs (download_path title) true;
                        Deleted (download_delete V download saved.2).1]
           else tail = [DownloadArrived true; SavedAs (download_path title) false]
       end).
Proof.
  intros clicked r.
  assert (Hframe : frame_of (after clicked) = frame_of this).
  { exact (preserves_act E frame_of frame_of_setPage _ _). }
  subst r. unfold downloadPDF. fold clicked.
  unfold events_of, failure_outcome, object_after, download_tails.
  destruct (outcome clicked) as [e | []] eqn:Hclick.
  - exists []. cbn [fst snd In]. rewrite app_nil_r.
    split; [reflexivity |]. split; [auto |].
    split; [intros e' [= <-]; split; reflexivity |].
    split; [split; discriminate |]. split; [exact Hframe | discriminate].
  - destruct (download_event V (page (after clicked))) as [[download |] w2]; cbn [fst snd].
    + destruct (download_saveAs V download (download_path title) w2) as [[|] w3];
        cbn [fst snd].
      * destruct (download_delete V download w3) as [[|] w4]; cbn [fst snd].
        -- eexists. split; [reflexivity |]. cbn [In]. split; [auto 10 |].
           split; [discriminate |]. split; [split; reflexivity |].
           split; [exact Hframe | intros u _; reflexivity].
        -- eexists. split; [reflexivity |]. cbn [In]. split; [auto 10 |].
           split; [discriminate |]. split; [split; discriminate |].
           split; [exact Hframe | intros u _; reflexivity].
      * eexists. split; [reflexivity |]. cbn [In]. split; [auto 10 |].
        split; [discriminate |]. split; [split; discriminate |].
        split; [exact Hframe | intros u _; reflexivity].
    + eexists. split; [reflexivity |]. cbn [In]. split; [auto 10 |].
      split; [discriminate |]. split; [split; discriminate |].
      split; [exact Hframe | intros u _; reflexivity].
Qed.

Lemma downloadPDF_events {W Schema Download : Type}
    (E : Collaborators W) (V : Services W Schema Download)
    (url title : string) (this : Stagehand W) :
  exists tail,
    events_of (downloadPDF E V url title this)
    = DownloadExpected
      :: map Core (trace (act E ("click on " +:+ url)
                            (setPage (waitForEvent_download V (page this)) this)))
      ++ tail /\
    In tail (download_tails title).
Proof.
  unfold downloadPDF, events_of, download_tails.
  set (clicked := act E ("click on " +:+ url)
                    (setPage (waitForEvent_download V (page this)) this)).
  destruct (outcome clicked) as [e | []].
  - exists []. cbn [fst snd In]. rewrite app_nil_r. auto.
  - destruct (download_event V (page (after clicked))) as [[download |] w2]; cbn [fst snd].
    + destruct (download_saveAs V download (download_path title) w2) as [[|] w3];
        cbn [fst snd].
      * destruct (download_delete V download w3) as [[|] w4]; cbn [fst snd];
          eexists; (split; [reflexivity |]); cbn [In]; auto 10.
      * eexists. split; [reflexivity |]. cbn [In]. auto 10.
    + eexists. split; [reflexivity |]. cbn [In]. auto 10.
Qed.

(** X20. The click of [downloadPDF] goes through the cache of [act]: when
    an action is stored for click on followed by the url, the call takes no
    snapshot and queries no oracle; when none is stored it queries the action
    oracle exactly once. *)
Theorem downloadPDF_click_uses_the_stored_action {W Schema Download : Type}
    (E : Collaborators W) (V : Services W Schema Download)
    (url title : string) (this : Stagehand W) :
  oracle_calls (core_events (events_of (downloadPDF E V url title this)))
  = match actions this !! getKey this ("click on " +:+ url) with
    | Some _ => 0
    | None => 1
    end.
Proof.
  destruct (downloadPDF_events E V url title this)
    as (tail & -> & Htail).
  cbn [core_events flat_map app]. fold (core_events (map Core
    (trace (act E ("click on " +:+ url)
              (setPage (waitForEvent_download V (page this)) this))) ++ tail)).
  rewrite core_events_app, core_events_map, oracle_calls_app.
  assert (Hquiet : oracle_calls (core_events tail) = 0).
  { unfold download_tails in Htail. cbn [In] in Htail.
    repeat (destruct Htail as [<- | Htail]; [reflexivity |]). destruct Htail. }
  rewrite Hquiet, Nat.add_0_r.
  set (listening := setPage (waitForEvent_download V (page this)) this).
  change (actions this !! getKey this ("click on " +:+ url))
    with (actions listening !! getKey listening ("click on " +:+ url)).
  destruct (actions listening !! getKey listening ("click on " +:+ url))
    as [entry |] eqn:Hc.
  - apply (act_hit_queries_nothing E listening _ entry Hc).
  - apply act_miss_queries_once. exact Hc.
Qed.

(** X21. What [cacheObservation] stores is what [observe] answers from:
    after [setId] and [cacheObservation] of an instruction with a non-empty
    locator, the mirror holds the locator tagged with that session
    identifier, and [observe] with the instruction only checks that locator,
    without snapshot or oracle, returning the key that [cacheObservation]
    returned when the check passes. *)
Theorem observe_after_cacheObservation_checks_the_locator {W : Type}
    (E : Collaborators W) (this : Stagehand W) (run observation locator : string) :
  locator <> "" ->
  let stored := cacheObservation observation locator (setId run this) in
  observations (after stored) !! getKey this observation
  = Some {| result := locator; id := Some run |} /\
  trace (observe E observation (after stored))
  = [ExpectAttached locator (toBeAttached E locator (page this)).1] /\
  exists key,
    outcome stored = inr key /\
    ((toBeAttached E locator (page this)).1 = true ->
     outcome (observe E observation (after stored)) = inr (Some key)).
Proof.
  intros Hne stored.
  assert (Hentry : observations (after stored) !! getKey this observation
                   = Some {| result := locator; id := Some run |}).
  { unfold stored, cacheObservation, after, getKey. cbn [fst snd observations this_id setId].
    apply lookup_insert_eq. }
  assert (Hc : cached_locator (after stored) observation = Some locator).
  { unfold cached_locator. change (getKey (after stored) observation)
      with (getKey this observation). rewrite Hentry. cbn.
    apply String.eqb_neq in Hne. rewrite Hne. reflexivity. }
  split; [exact Hentry |].
  destruct (toBeAttached E locator (page this)) as [ok w] eqn:Ha.
  rewrite (observe_hit E (after stored) observation locator ok w Hc Ha).
  cbn [fst snd]. split; [reflexivity |].
  exists (getKey this observation). split; [reflexivity |]. intros ->. reflexivity.
Qed.

Lemma observe_after_cacheObservation_checks_the_locator_witness :
  let E := Demo.collaborators [] in
  let this := constructor false false ∅ ∅ Demo.submit_page in
  let locator := "xpath=//button[@id='submit']" in
  let stored := cacheObservation "the submit button" locator (setId "run-1" this) in
  observations (after stored) !! getKey this "the submit button"
  = Some {| result := locator; id := Some "run-1" |} /\
  trace (observe E "the submit button" (after stored))
  = [ExpectAttached locator (toBeAttached E locator (page this)).1] /\
  exists key,
    outcome stored = inr key /\
    ((toBeAttached E locator (page this)).1 = true ->
     outcome (observe E "the submit button" (after stored)) = inr (Some key)).
Proof.
  intros E this locator.
  apply (observe_after_cacheObservation_checks_the_locator E this "run-1"
           "the submit button" locator).
  discriminate.
Defined.

(** X22. A stored action whose text denotes an empty list, null, an empty
    text or an empty object makes [act] end in a TypeError after its first
    wait, on any page, with no interaction and without turning to the
    oracle. *)
Theorem act_stored_empty_value_fails {W : Type} (E : Collaborators W)
    (this : Stagehand W) (action : string) (entry : CacheEntry) (value : JSVal) :
  actions this !! getKey this action = Some entry ->
  JSON_parse E (result entry) = Some value ->
  In value [JArr []; JNull; JStr ""; JObj []] ->
  forall w : W,
    act E action (setPage w this)
    = (inl TypeError, setPage (waitForDomSettle E w).2 this,
       [Settle (waitForDomSettle E w).1]).
Proof.
  intros Hhit Hparse Hempty w.
  destruct (waitForDomSettle E w) as [ok w0] eqn:Hw.
  rewrite (act_hit E (setPage w this) action entry ok w0 Hhit Hw).
  unfold replay_stored. rewrite Hparse. cbn [or_throw]. rewrite bind_ret.
  cbn [In] in Hempty.
  destruct Hempty as [<- | [<- | [<- | [<- | []]]]]; reflexivity.
Qed.

Lemma act_stored_empty_value_fails_witness :
  let E := Demo.collaborators [JArr []] in
  let key := SHA256.hexdigest "click on Submit" in
  let this := constructor false false ∅ {[ key := Demo.stored (JArr []) ]}
                Demo.submit_page in
  let w := Demo.empty_page in
  act E "click on Submit" (setPage w this)
  = (inl TypeError, setPage (waitForDomSettle E w).2 this,
     [Settle (waitForDomSettle E w).1]).
Proof.
  intros E key this w.
  refine (act_stored_empty_value_fails E this "click on Submit"
            (Demo.stored (JArr [])) (JArr []) _ _ _ w).
  - vm_compute. reflexivity.
  - reflexivity.
  - left. reflexivity.
Defined.

(** X23. A key returned by [observe] always stands for a locator that the
    call has just seen attached: the last event of the call is the passed
    attachment check of a locator, and that locator is what the mirror holds
    for the instruction afterwards. *)
Theorem observe_returns_only_attached_locators {W : Type} (E : Collaborators W)
    (this : Stagehand W) (observation k : string) :
  outcome (observe E observation this) = inr (Some k) ->
  exists locator,
    last (trace (observe E observation this)) = Some (ExpectAttached locator true) /\
    cached_locator (after (observe E observation this)) observation = Some locator.
Proof.
  destruct (cached_locator this observation) as [locator |] eqn:Hc.
  - destruct (toBeAttached E locator (page this)) as [ok w] eqn:Ha.
    rewrite (observe_hit E this observation locator ok w Hc Ha).
    destruct ok; [| discriminate].
    intros _. exists locator. split; [reflexivity | exact Hc].
  - destruct (processElements E (page this)) as [els w1] eqn:Hs.
    destruct (chat_completions_create E observation els.1 w1) as [content w2] eqn:Ho.
    rewrite (observe_miss E this observation els w1 w2 content Hc Hs Ho).
    destruct (truthy_string content) as [elementId |]; [| discriminate].
    destruct (String.eqb elementId "NONE"); [discriminate |].
    cbv zeta. destruct (toBeAttached E _ w2) as [[|] w3]; [| discriminate].
    intros _. eexists. split; [reflexivity |].
    unfold after. cbn [fst snd]. apply cached_locator_remembered.
Qed.

Lemma observe_returns_only_attached_locators_witness :
  let E := Demo.collaborators [] in
  let this := constructor false false ∅ ∅ Demo.submit_page in
  exists locator,
    last (trace (observe E "the submit button" this))
    = Some (ExpectAttached locator true) /\
    cached_locator (after (observe E "the submit button" this)) "the submit button"
    = Some locator.
Proof.
  intros E this.
  apply (observe_returns_only_attached_locators E this "the submit button"
           (SHA256.hexdigest "the submit button")).
  vm_compute. reflexivity.
Defined.
